(** * GDrive_batch: recursive download of a shared Google Drive folder

    A shallow embedding of [src/GDrive_batch.py] (URL parsing, paginated
    listing, per-file download, the recursive walk and the orchestrator)
    together with the properties of the specification that concern them.

    Conventions of the embedding
    - Python [str] values are [string]; a [bytes] payload is a [string] too.
    - The Drive client ([service]) and the credential libraries are external
      collaborators: they are records of response functions, one field per
      remote call the source makes.
    - The local file system, the log and the sequence of external calls are
      explicit state ([world]) threaded through a small state-and-exception
      monad.
    - The remote side is a snapshot: the answer of a remote call depends on
      its arguments only.  Transfers are finite.
    - Paths are POSIX paths ([os.path] is [posixpath]) and are compared as
      written.
    - [while True] and the recursion of [process_files] take fuel; running
      out of fuel is an outcome of its own, never confused with a value. *)

From Stdlib Require Import ZArith Lia Ascii String.
From stdpp Require Import base strings list gmap.

(* ===================================================================== *)
(** ** Python string primitives *)
(* ===================================================================== *)

Module PyString.

(** [s.startswith(p)] *)
Fixpoint startswith (p s : string) : bool :=
  match p, s with
  | EmptyString, _ => true
  | String a p', String b s' => if Ascii.eqb a b then startswith p' s' else false
  | String _ _, EmptyString => false
  end.

(** [sub in s] for two strings *)
Fixpoint contains (sub s : string) : bool :=
  startswith sub s ||
  match s with
  | EmptyString => false
  | String _ s' => contains sub s'
  end.

(** [s.endswith("/")] and the like *)
Fixpoint endswith_char (c : ascii) (s : string) : bool :=
  match s with
  | EmptyString => false
  | String a EmptyString => Ascii.eqb a c
  | String _ s' => endswith_char c s'
  end.

(** The scan behind [s.split(sep)] for a non-empty [sep]: occurrences of
    [sep] are found left to right and do not overlap.  [skip] counts the
    characters of a matched separator that are still to be dropped.  The
    result is the piece in progress and the pieces after it. *)
Fixpoint split_scan (sep : string) (skip : nat) (s : string) : string * list string :=
  match s with
  | EmptyString => (EmptyString, [])
  | String c s' =>
      match skip with
      | S k => split_scan sep k s'
      | O =>
          if startswith sep s
          then let r := split_scan sep (String.length sep - 1) s' in
               (EmptyString, r.1 :: r.2)
          else let r := split_scan sep 0 s' in
               (String c r.1, r.2)
      end
  end.

(** [s.split(sep)]; every separator in the source is a non-empty literal. *)
Definition split (sep s : string) : list string :=
  let r := split_scan sep 0 s in r.1 :: r.2.

(** What is left of a string once [n] characters are dropped. *)
Fixpoint drop (n : nat) (s : string) : string :=
  match n, s with
  | O, _ => s
  | S k, String _ s' => drop k s'
  | S _, EmptyString => EmptyString
  end.

End PyString.

(* ===================================================================== *)
(** ** Python values that can reach [get_shared_folder_id] *)
(* ===================================================================== *)

(** The exception classes the source names in an [except] clause, and one
    constructor for every other subclass of [Exception]. *)
Inductive exn : Type :=
  | HttpError
  | OSError
  | IndexError
  | TypeError
  | AttributeError
  | OtherException.

#[global] Instance exn_eq_dec : EqDecision exn.
Proof. solve_decision. Defined.

(** What a call that always ends gives back: a value or an exception. *)
Inductive result (A : Type) : Type :=
  | Returns (a : A)
  | Raises (e : exn).
Arguments Returns {A} a.
Arguments Raises {A} e.

#[global] Instance result_ret : MRet result := @Returns.
#[global] Instance result_bind : MBind result := fun A B f m =>
  match m with
  | Returns a => f a
  | Raises e => Raises e
  end.

(** A dynamically typed argument.  Only the built-in types are covered. *)
#[warnings="-register-all"]
Inductive pyval : Type :=
  | PyNone
  | PyBool (b : bool)
  | PyInt (z : Z)
  | PyStr (s : string)
  | PyBytes (s : string)
  | PyList (l : list pyval)
  | PyTuple (l : list pyval).

(** [bool(v)] *)
Definition truthy (v : pyval) : bool :=
  match v with
  | PyNone => false
  | PyBool b => b
  | PyInt z => negb (Z.eqb z 0)
  | PyStr s | PyBytes s => negb (String.eqb s "")
  | PyList l | PyTuple l => match l with [] => false | _ => true end
  end.

(** [v == m] for a [str] literal [m] *)
Definition eq_str (m : string) (v : pyval) : bool :=
  match v with
  | PyStr s => String.eqb m s
  | _ => false
  end.

(** [m in v] for a [str] literal [m] *)
Definition py_in (m : string) (v : pyval) : result bool :=
  match v with
  | PyStr s => Returns (PyString.contains m s)
  | PyList l | PyTuple l => Returns (existsb (eq_str m) l)
  | PyNone | PyBool _ | PyInt _ | PyBytes _ => Raises TypeError
  end.

(** [v.split(sep)] *)
Definition py_split (sep : string) (v : pyval) : result (list string) :=
  match v with
  | PyStr s => Returns (PyString.split sep s)
  | PyBytes _ => Raises TypeError
  | _ => Raises AttributeError
  end.

(** [l[i]] *)
Definition py_index {A} (l : list A) (i : nat) : result A :=
  match l !! i with
  | Some x => Returns x
  | None => Raises IndexError
  end.

(* ===================================================================== *)
(** ** [get_shared_folder_id] *)
(* ===================================================================== *)

Definition folders_marker : string := "folders/".
Definition folderview_marker : string := "folderview?id=".

(** The body of the [try] block for one marker and its delimiter:
    [shared_url.split(marker)[1].split(delim)[0]] *)
Definition extract_after (marker delim : string) (shared_url : pyval) : result string :=
  parts ← py_split marker shared_url;
  tail ← py_index parts 1;
  py_index (PyString.split delim tail) 0.

(** The [try] block. *)
Definition get_shared_folder_id_try (shared_url : pyval) : result (option string) :=
  in_folders ← py_in folders_marker shared_url;
  if (in_folders : bool) then
    folder_id ← extract_after folders_marker "?" shared_url;
    mret (Some folder_id)
  else
    in_folderview ← py_in folderview_marker shared_url;
    if (in_folderview : bool) then
      folder_id ← extract_after folderview_marker "&" shared_url;
      mret (Some folder_id)
    else mret None.

(** [get_shared_folder_id]: [None] for a falsy argument, then the [try]
    block with its two handlers, [IndexError] and [TypeError]. *)
Definition get_shared_folder_id (shared_url : pyval) : result (option string) :=
  if negb (truthy shared_url) then Returns None
  else
    match get_shared_folder_id_try shared_url with
    | Raises IndexError => Returns None
    | Raises TypeError => Returns None
    | r => r
    end.

(* ===================================================================== *)
(** ** The outside world: Drive client, local file system, log *)
(* ===================================================================== *)

(** One listed child: the three fields the listing query asks for. *)
Record file_data : Type := FileData {
  fd_id : string;
  fd_name : string;
  fd_mimeType : string
}.

(** Keyword arguments of [service.files().list(...)]. *)
Record list_request : Type := ListRequest {
  q : string;
  fields : string;
  pageToken : option string;
  supportsAllDrives : bool;
  includeItemsFromAllDrives : bool
}.

(** The dictionary a listing call answers with; a missing key is [None]. *)
Record results_page : Type := ResultsPage {
  files : option (list file_data);
  nextPageToken : option string
}.

(** What [MediaIoBaseDownload.next_chunk] does call after call: it writes a
    chunk and reports [done], or raises.  Transfers are finite. *)
Inductive media : Type :=
  | LastChunk (data : string)
  | Chunk (data : string) (rest : media)
  | ChunkError (e : exn).

(** The Drive client: the answer of each remote call, as a function of its
    arguments (the remote side is a snapshot for the length of a run). *)
Record service : Type := Service {
  files_list : list_request → result results_page;
  files_get : string → result string;   (* the [mimeType] of the metadata *)
  files_get_media : string → media
}.

(** Whether the operating system refuses an operation on a path.  A
    refused [os.makedirs] is refused at one of the directories it has to
    make, the outer ones first: [makedirs_made] tells how many of the
    intermediate directories are made before that. *)
Record os_env : Type := OsEnv {
  makedirs_fails : string → bool;
  makedirs_made : string → nat;
  open_fails : string → bool
}.

(** One constructor per [logging] call of the source, with the values its
    f-string interpolates. *)
Inductive log_record : Type :=
  | LogServiceAccountError (e : exn)
  | LogTokenLoadError (token_path : string) (e : exn)
  | LogRefreshError (e : exn)
  | LogNeedInteractive
  | LogTokenSaveFailed (token_path : string) (e : exn)
  | LogServiceAccountLoaded
  | LogServiceAccountFallback
  | LogServiceCreated
  | LogServiceError (e : exn)
  | LogListingError (e : exn)
  | LogSkippingFolder (file_name file_id : string)
  | LogOverwriting (file_path : string)
  | LogDownloaded (file_name file_path : string)
  | LogDownloadHttpError (file_name : string) (e : exn)
  | LogDownloadUnexpected (file_name : string) (e : exn)
  | LogCreatedDirectory (p : string)
  | LogCreateDirectoryFailed (p : string) (e : exn)
  | LogProcessingFolder (file_name file_id : string)
  | LogFolderEmpty (file_name : string)
  | LogUrlRequired
  | LogPathRequired
  | LogInvalidUrl
  | LogNoCredentials
  | LogNoService
  | LogNoFiles.

Inductive level : Type := INFO | WARNING | ERROR.

Definition level_of (r : log_record) : level :=
  match r with
  | LogServiceAccountLoaded | LogServiceCreated | LogSkippingFolder _ _
  | LogDownloaded _ _ | LogCreatedDirectory _ | LogProcessingFolder _ _
  | LogFolderEmpty _ => INFO
  | LogTokenSaveFailed _ _ | LogServiceAccountFallback | LogOverwriting _
  | LogNoFiles => WARNING
  | _ => ERROR
  end.

(** What the program does to the outside, in program order. *)
Inductive event : Type :=
  | Log (r : log_record)
  | CallList (req : list_request)
  | CallGet (file_id : string)
  | CallGetMedia (file_id : string)
  | Makedirs (p : string)
  | OpenWrite (p : string).

(** Directories and files are keyed by the path as written. *)
Record world : Type := World {
  fs_dirs : gset string;
  fs_files : gmap string string;
  trace : list event
}.

(** Outcome of a run: a value, a raised exception, or fuel exhausted. *)
Inductive outcome (A : Type) : Type :=
  | Ret (a : A)
  | Raise (e : exn)
  | OutOfFuel.
Arguments Ret {A} a.
Arguments Raise {A} e.
Arguments OutOfFuel {A}.

(** State and exceptions. *)
Definition M (A : Type) : Type := world → outcome A * world.

#[global] Instance M_ret : MRet M := fun A a w => (Ret a, w).
#[global] Instance M_bind : MBind M := fun A B f m w =>
  match m w with
  | (Ret a, w') => f a w'
  | (Raise e, w') => (Raise e, w')
  | (OutOfFuel, w') => (OutOfFuel, w')
  end.

Definition raise {A} (e : exn) : M A := fun w => (Raise e, w).
Definition out_of_fuel {A} : M A := fun w => (OutOfFuel, w).
Definition lift {A} (r : result A) : M A := fun w =>
  match r with
  | Returns a => (Ret a, w)
  | Raises e => (Raise e, w)
  end.
(** The world once [ev] has happened. *)
Definition push (ev : event) (w : world) : world :=
  World (fs_dirs w) (fs_files w) (trace w ++ [ev]).

Definition emit (ev : event) : M unit := fun w => (Ret tt, push ev w).
Definition logging (r : log_record) : M unit := emit (Log r).

(** [try: body  except ...:], the handler choosing by exception class;
    [None] lets the exception through. *)
Definition try_except {A} (body : M A) (handler : exn → option (M A)) : M A := fun w =>
  match body w with
  | (Raise e, w') =>
      match handler e with
      | Some h => h w'
      | None => (Raise e, w')
      end
  | r => r
  end.

(** [for x in xs: body x] *)
Fixpoint for_each {A} (xs : list A) (body : A → M unit) : M unit :=
  match xs with
  | [] => mret tt
  | x :: xs' => body x;; for_each xs' body
  end.

(** *** [os] and [io] *)

(** [posixpath.join(a, b)] *)
Definition os_path_join (a b : string) : string :=
  if PyString.startswith "/" b then b
  else if String.eqb a "" || PyString.endswith_char "/"%char a then a +:+ b
  else a +:+ "/" +:+ b.

Definition path_exists (p : string) (w : world) : bool :=
  bool_decide (p ∈ fs_dirs w) || bool_decide (is_Some (fs_files w !! p)).

(** [os.path.exists(p)] *)
Definition os_path_exists (p : string) : M bool := fun w => (Ret (path_exists p w), w).

(** The non-empty proper prefixes of [p] that end just before a ["/"]: the
    intermediate directories [os.makedirs] creates on the way. *)
Fixpoint ancestors_from (seen p : string) : list string :=
  match p with
  | EmptyString => []
  | String c p' =>
      (if Ascii.eqb c "/"%char && negb (String.eqb seen "") then [seen] else [])
      ++ ancestors_from (seen +:+ String c EmptyString) p'
  end.
Definition ancestors (p : string) : list string := ancestors_from "" p.

(** The intermediate directories a refused [os.makedirs(p)] leaves behind:
    it makes them from the outermost inwards and stops where it is
    refused. *)
Definition left_behind (os : os_env) (p : string) : list string :=
  take (makedirs_made os p) (ancestors p).

(** [os.makedirs(p)]: [FileExistsError] when the leaf exists; [OSError] when
    the system refuses, the intermediate directories made until then
    staying; otherwise the leaf and its ancestors are there. *)
Definition os_makedirs (os : os_env) (p : string) : M unit := fun w =>
  let w1 := push (Makedirs p) w in
  if path_exists p w then (Raise OSError, w1)
  else if makedirs_fails os p then
    (Raise OSError, World (fs_dirs w ∪ list_to_set (left_behind os p)) (fs_files w)
                          (trace w1))
  else (Ret tt, World (fs_dirs w ∪ list_to_set (ancestors p) ∪ {[ p ]}) (fs_files w)
                      (trace w1)).

(** [io.FileIO(p, 'wb')] and [open(p, 'w')]: the file is created or
    truncated, unless [p] is a directory or the system refuses. *)
Definition open_write (os : os_env) (p : string) : M unit := fun w =>
  let w1 := push (OpenWrite p) w in
  if bool_decide (p ∈ fs_dirs w) || open_fails os p then (Raise OSError, w1)
  else (Ret tt, World (fs_dirs w) (<[p := ""]> (fs_files w)) (trace w1)).

(** [fh.write(data)] on a file opened at [p] *)
Definition write_chunk (p data : string) : M unit := fun w =>
  (Ret tt, World (fs_dirs w)
                 (<[p := default "" (fs_files w !! p) +:+ data]> (fs_files w))
                 (trace w)).

(** Reading a whole file, as the credential loaders do. *)
Definition read_file (p : string) : M string := fun w =>
  if bool_decide (p ∈ fs_dirs w) then (Raise OSError, w)
  else match fs_files w !! p with
       | Some c => (Ret c, w)
       | None => (Raise OSError, w)
       end.

(** *** Remote calls, recorded in the trace *)

Definition call_list (svc : service) (req : list_request) : M results_page :=
  emit (CallList req);; lift (files_list svc req).

Definition call_get (svc : service) (file_id : string) : M string :=
  emit (CallGet file_id);; lift (files_get svc file_id).

Definition call_get_media (svc : service) (file_id : string) : M media :=
  emit (CallGetMedia file_id);; mret (files_get_media svc file_id).

(* ===================================================================== *)
(** ** [list_files_in_folder] *)
(* ===================================================================== *)

Definition folder_mime : string := "application/vnd.google-apps.folder".

(** The [q] argument: [f"'{folder_id}' in parents and trashed=false"] *)
Definition list_query (folder_id : string) : string :=
  "'" +:+ folder_id +:+ "' in parents and trashed=false".

Definition list_req (folder_id : string) (page_token : option string) : list_request :=
  {| q := list_query folder_id;
     fields := "nextPageToken, files(id, name, mimeType)";
     pageToken := page_token;
     supportsAllDrives := true;
     includeItemsFromAllDrives := true |}.

(** [not results_page]: the empty dictionary *)
Definition page_falsy (p : results_page) : bool :=
  match files p, nextPageToken p with
  | None, None => true
  | _, _ => false
  end.

(** [results_page.get('files', [])] *)
Definition page_items (p : results_page) : list file_data := default [] (files p).

(** [not page_token] *)
Definition token_falsy (t : option string) : bool :=
  match t with
  | None => true
  | Some s => String.eqb s ""
  end.

(** The [while True] loop; one unit of fuel per iteration. *)
Fixpoint list_loop (fuel : nat) (svc : service) (folder_id : string)
    (results : list file_data) (page_token : option string) : M (list file_data) :=
  match fuel with
  | O => out_of_fuel
  | S fuel' =>
      results_page ← call_list svc (list_req folder_id page_token);
      if page_falsy results_page then mret results
      else
        let items := page_items results_page in
        match items with
        | [] => mret results
        | _ :: _ =>
            let results := results ++ items in
            let page_token := nextPageToken results_page in
            if token_falsy page_token then mret results
            else list_loop fuel' svc folder_id results page_token
        end
  end.

Definition list_files_in_folder (fuel : nat) (svc : service) (folder_id : string)
    : M (list file_data) :=
  try_except (list_loop fuel svc folder_id [] None)
    (fun error =>
       match error with
       | HttpError => Some (logging (LogListingError error);; mret [])
       | _ => None
       end).

(* ===================================================================== *)
(** ** [download_file] *)
(* ===================================================================== *)

(** [while not done: status, done = downloader.next_chunk()] *)
Fixpoint download_chunks (file_path : string) (m : media) : M unit :=
  match m with
  | LastChunk data => write_chunk file_path data
  | Chunk data rest => write_chunk file_path data;; download_chunks file_path rest
  | ChunkError e => raise e
  end.

Definition download_file (os : os_env) (svc : service)
    (file_id file_name download_path : string) : M unit :=
  try_except
    (mime ← call_get svc file_id;
     if String.eqb mime folder_mime then
       logging (LogSkippingFolder file_name file_id)
     else
       let file_path := os_path_join download_path file_name in
       there ← os_path_exists file_path;
       (if (there : bool) then logging (LogOverwriting file_path) else mret tt);;
       request ← call_get_media svc file_id;
       open_write os file_path;;
       download_chunks file_path request;;
       logging (LogDownloaded file_name file_path))
    (fun error =>
       match error with
       | HttpError => Some (logging (LogDownloadHttpError file_name error))
       | e => Some (logging (LogDownloadUnexpected file_name e))
       end).

(* ===================================================================== *)
(** ** [process_files] *)
(* ===================================================================== *)

(** The second half of the loop body, [if mime_type == ...: ... else: ...].
    [recurse] is [process_files] itself, one level down. *)
Definition process_entry_by_type (pfuel : nat) (os : os_env) (svc : service)
    (recurse : list file_data → string → string → M unit)
    (download_path parent_folder_name current_download_path : string)
    (file_data : file_data) : M unit :=
  let file_id := fd_id file_data in
  let file_name := fd_name file_data in
  let mime_type := fd_mimeType file_data in
  if String.eqb mime_type folder_mime then
    logging (LogProcessingFolder file_name file_id);;
    sub_files ← list_files_in_folder pfuel svc file_id;
    match sub_files with
    | _ :: _ =>
        recurse sub_files download_path
          (if negb (String.eqb parent_folder_name "")
           then os_path_join parent_folder_name file_name else file_name)
    | [] => logging (LogFolderEmpty file_name)
    end
  else download_file os svc file_id file_name current_download_path.

(** The body of the [for] loop: the local directory first, then the entry
    itself.  A directory that cannot be created skips the entry. *)
Definition process_entry (pfuel : nat) (os : os_env) (svc : service)
    (recurse : list file_data → string → string → M unit)
    (download_path parent_folder_name : string) (file_data : file_data) : M unit :=
  if negb (String.eqb parent_folder_name "") then
    let current_download_path := os_path_join download_path parent_folder_name in
    there ← os_path_exists current_download_path;
    if negb there then
      created ← try_except
        (os_makedirs os current_download_path;;
         logging (LogCreatedDirectory current_download_path);;
         mret true)
        (fun e =>
           match e with
           | OSError =>
               Some (logging (LogCreateDirectoryFailed current_download_path e);;
                     mret false)
           | _ => None
           end);
      if (created : bool)
      then process_entry_by_type pfuel os svc recurse download_path parent_folder_name
             current_download_path file_data
      else mret tt   (* continue *)
    else process_entry_by_type pfuel os svc recurse download_path parent_folder_name
           current_download_path file_data
  else process_entry_by_type pfuel os svc recurse download_path parent_folder_name
         download_path file_data.

(** [fuel] bounds the depth of the recursion, [pfuel] the pages of one
    listing. *)
Fixpoint process_files (fuel pfuel : nat) (os : os_env) (svc : service)
    (files : list file_data) (download_path parent_folder_name : string) : M unit :=
  match fuel with
  | O => out_of_fuel
  | S fuel' =>
      for_each files
        (process_entry pfuel os svc (process_files fuel' pfuel os svc)
           download_path parent_folder_name)
  end.

(* ===================================================================== *)
(** ** Credentials and client construction *)
(* ===================================================================== *)

(** What the source reads of a credentials object. *)
Record creds : Type := Creds {
  valid : bool;
  expired : bool;
  refresh_token : option string;
  identity : string
}.

(** The Google client libraries: parsing a credential file is a function of
    its content, refreshing and building a client are remote calls. *)
Record auth_lib : Type := AuthLib {
  from_service_account_file : string → result creds;
  from_authorized_user_file : string → result creds;
  refresh : creds → result creds;
  to_json : creds → string;
  build : creds → result service
}.

(** [except Exception as e: handler e] *)
Definition except_Exception {A} (body : M A) (handler : exn → M A) : M A :=
  try_except body (fun e => Some (handler e)).

Definition get_service_account_credentials (lib : auth_lib) (filename : string)
    : M (option creds) :=
  except_Exception
    (there ← os_path_exists filename;
     (if negb there then raise OSError else mret tt);;
     content ← read_file filename;
     c ← lift (from_service_account_file lib content);
     mret (Some c))
    (fun e => logging (LogServiceAccountError e);; mret None).

Definition get_credentials_interactive (lib : auth_lib) (os : os_env)
    (token_path : string) : M (option creds) :=
  there ← os_path_exists token_path;
  loaded ← (if (there : bool) then
              except_Exception
                (content ← read_file token_path;
                 c ← lift (from_authorized_user_file lib content);
                 mret (Some c))
                (fun e => logging (LogTokenLoadError token_path e);; mret None)
            else mret None);
  match loaded with
  | Some c =>
      if valid c then mret (Some c)
      else if expired c && negb (token_falsy (refresh_token c)) then
        refreshed ← except_Exception
          (c' ← lift (refresh lib c); mret (Some c'))
          (fun e => logging (LogRefreshError e);; mret None);
        match refreshed with
        | None => mret None
        | Some c' =>
            except_Exception
              (open_write os token_path;; write_chunk token_path (to_json lib c'))
              (fun e => logging (LogTokenSaveFailed token_path e));;
            mret (Some c')
        end
      else logging LogNeedInteractive;; mret None
  | None => logging LogNeedInteractive;; mret None
  end.

Definition get_credentials (lib : auth_lib) (os : os_env) (use_service_account : bool)
    (service_account_file token_path : string) : M (option creds) :=
  sa ← (if use_service_account then
          c ← get_service_account_credentials lib service_account_file;
          match c with
          | Some _ => logging LogServiceAccountLoaded;; mret c
          | None => logging LogServiceAccountFallback;; mret None
          end
        else mret None);
  match sa with
  | Some c => mret (Some c)
  | None => get_credentials_interactive lib os token_path
  end.

Definition create_service (lib : auth_lib) (credentials : creds) : M (option service) :=
  except_Exception
    (svc ← lift (build lib credentials);
     logging LogServiceCreated;;
     mret (Some svc))
    (fun e => logging (LogServiceError e);; mret None).

(* ===================================================================== *)
(** ** [download_files_from_shared_link] *)
(* ===================================================================== *)

(** [if not folder_id] rejects both [None] and the empty string. *)
Definition download_files_from_shared_link (fuel pfuel : nat) (lib : auth_lib) (os : os_env)
    (shared_url download_path : string) (use_service_account : bool)
    (service_account_file token_path : string) : M bool :=
  if String.eqb shared_url "" then logging LogUrlRequired;; mret false
  else if String.eqb download_path "" then logging LogPathRequired;; mret false
  else
    folder_id ← lift (get_shared_folder_id (PyStr shared_url));
    match folder_id with
    | None => logging LogInvalidUrl;; mret false
    | Some folder_id =>
        if String.eqb folder_id "" then logging LogInvalidUrl;; mret false
        else
          credentials ← get_credentials lib os use_service_account
                          service_account_file token_path;
          match credentials with
          | None => logging LogNoCredentials;; mret false
          | Some credentials =>
              svc ← create_service lib credentials;
              match svc with
              | None => logging LogNoService;; mret false
              | Some svc =>
                  files ← list_files_in_folder pfuel svc folder_id;
                  match files with
                  | [] => logging LogNoFiles;; mret true
                  | _ :: _ =>
                      process_files fuel pfuel os svc files download_path "";;
                      mret true
                  end
              end
          end
    end.

(* ===================================================================== *)
(** ** Reference functions for the statements about URL parsing *)
(* ===================================================================== *)

Module UrlSpec.
Import PyString.

(** The text after the first occurrence of [m] in [s], if [m] occurs. *)
Fixpoint first_after (m s : string) : option string :=
  if startswith m s then Some (drop (String.length m) s)
  else match s with
       | EmptyString => None
       | String _ s' => first_after m s'
       end.

(** The longest prefix of [s] that ends before the first position whose
    remaining text satisfies [stop] (all of [s] when there is none). *)
Fixpoint until (stop : string → bool) (s : string) : string :=
  if stop s then EmptyString
  else match s with
       | EmptyString => EmptyString
       | String c s' => String c (until stop s')
       end.

(** The marker the parser settles on, its delimiter and the text after
    its first occurrence: ["folders/"] when it occurs, ["folderview?id="]
    otherwise. *)
Definition selected_marker (url : string) : option (string * ascii * string) :=
  match first_after folders_marker url with
  | Some rest => Some (folders_marker, "?"%char, rest)
  | None =>
      match first_after folderview_marker url with
      | Some rest => Some (folderview_marker, "&"%char, rest)
      | None => None
      end
  end.

(** Every [t] with [s = pre +:+ mid +:+ t] for some [pre]. *)
Fixpoint tails_after (mid s : string) : list string :=
  (if startswith mid s then [drop (String.length mid) s] else [])
  ++ match s with
     | EmptyString => []
     | String _ s' => tails_after mid s'
     end.

(** The claim of the specification, read as a relation between a URL and
    the identifier it should yield: the identifier sits between one of the
    two markers and a following ['?'] or ['&'], or the end of the string. *)
Definition between_marker_and_delimiter (url r : string) : Prop :=
  ∃ m pre tail,
    (m = folders_marker ∨ m = folderview_marker) ∧
    url = pre +:+ m +:+ r +:+ tail ∧
    (tail = "" ∨ startswith "?" tail = true ∨ startswith "&" tail = true).

(** Inputs the specification calls malformed or unrecognized: anything
    that is not a string, the empty string, a string without a marker. *)
Definition malformed (v : pyval) : Prop :=
  match v with
  | PyStr s => s = "" ∨ (contains folders_marker s = false ∧
                         contains folderview_marker s = false)
  | _ => True
  end.

(** Inputs on which no marker is found: a string without a marker, a
    sequence without a marker among its elements, a value of any other
    built-in type. *)
Definition marker_free (v : pyval) : bool :=
  match v with
  | PyStr s => negb (contains folders_marker s) && negb (contains folderview_marker s)
  | PyList l | PyTuple l =>
      negb (existsb (eq_str folders_marker) l) &&
      negb (existsb (eq_str folderview_marker) l)
  | PyNone | PyBool _ | PyInt _ | PyBytes _ => true
  end.

End UrlSpec.

(* ===================================================================== *)
(** ** Descriptions of the remote side used in the statements *)
(* ===================================================================== *)

Module Remote.

(** The loop of [list_files_in_folder] goes on after this page: the page
    is not the empty dictionary, it has entries, and its cursor is set. *)
Definition continues (page : results_page) : bool :=
  negb (page_falsy page)
  && match page_items page with [] => false | _ :: _ => true end
  && negb (token_falsy (nextPageToken page)).

(** [serves_pages svc folder_id tok pages]: asked for the children of
    [folder_id] from cursor [tok] on, the service answers with exactly the
    pages [pages], each but the last carrying a cursor to the next. *)
Inductive serves_pages (svc : service) (folder_id : string)
    : option string → list (list file_data) → Prop :=
  | serves_last tok page :
      files_list svc (list_req folder_id tok) = Returns page →
      token_falsy (nextPageToken page) = true →
      serves_pages svc folder_id tok [page_items page]
  | serves_more tok page pages :
      files_list svc (list_req folder_id tok) = Returns page →
      token_falsy (nextPageToken page) = false →
      serves_pages svc folder_id (nextPageToken page) pages →
      serves_pages svc folder_id tok (page_items page :: pages).

(** The entries of the pages that come before the first empty page. *)
Fixpoint concat_until_empty (pages : list (list file_data)) : list file_data :=
  match pages with
  | [] => []
  | [] :: _ => []
  | (_ :: _) as page :: pages' => page ++ concat_until_empty pages'
  end.

(** [listing_raises svc folder_id n tok e]: the loop started at cursor [tok]
    makes [n] calls and the last of them raises [e]. *)
Inductive listing_raises (svc : service) (folder_id : string)
    : nat → option string → exn → Prop :=
  | raises_now tok e :
      files_list svc (list_req folder_id tok) = Raises e →
      listing_raises svc folder_id 1 tok e
  | raises_later n tok page e :
      files_list svc (list_req folder_id tok) = Returns page →
      continues page = true →
      listing_raises svc folder_id n (nextPageToken page) e →
      listing_raises svc folder_id (S n) tok e.

(** The query carries the [trashed=false] conjunct. *)
Definition filters_trashed (query : string) : Prop :=
  ∃ condition, query = condition +:+ " and trashed=false".

(** The service applies the [trashed=false] conjunct: a page answering a
    query that carries it has no entry that [trashed] marks. *)
Definition honours_trashed_filter (svc : service) (trashed : file_data → bool) : Prop :=
  ∀ req page f,
    filters_trashed (q req) →
    files_list svc req = Returns page →
    f ∈ page_items page →
    trashed f = false.

(** The listing endpoint fails with [HttpError] only. *)
Definition list_raises_only_http (svc : service) : Prop :=
  ∀ req e, files_list svc req = Raises e → e = HttpError.

(** The remote hierarchy is finite: along the pages of one folder a
    measure of the cursor goes down, and a folder listed under another has
    a smaller rank. *)
Record remote_finite (svc : service) (rank : string → nat)
    (prank : string → option string → nat) : Prop := RemoteFinite {
  pages_decrease : ∀ folder_id tok page,
    files_list svc (list_req folder_id tok) = Returns page →
    continues page = true →
    prank folder_id (nextPageToken page) < prank folder_id tok;
  folders_decrease : ∀ folder_id tok page f,
    files_list svc (list_req folder_id tok) = Returns page →
    f ∈ page_items page →
    fd_mimeType f = folder_mime →
    rank (fd_id f) < rank folder_id
}.

End Remote.

(* ===================================================================== *)
(** ** Mock collaborators for the worked examples *)
(* ===================================================================== *)

Module Mock.

(** A cursor that stands for page [k]: [k] letters. *)
Fixpoint cursor (k : nat) : string :=
  match k with
  | O => EmptyString
  | S k' => String "p"%char (cursor k')
  end.

(** A listing endpoint that serves [pages] one at a time, whatever the
    folder; the other endpoints are not used. *)
Definition paged_service (pages : list (list file_data)) : service :=
  {| files_list := fun req =>
       let i := from_option String.length 0 (pageToken req) in
       match pages !! i with
       | Some items =>
           Returns (ResultsPage (Some items)
                      (if bool_decide (S i < length pages)
                       then Some (cursor (S i)) else None))
       | None => Raises HttpError
       end;
     files_get := fun _ => Raises HttpError;
     files_get_media := fun _ => ChunkError HttpError |}.

(** The cursor that asks for page [k]; the first page is asked without. *)
Definition cursor_of (k : nat) : option string :=
  match k with
  | O => None
  | S _ => Some (cursor k)
  end.

Definition entry_a : file_data := FileData "id-a" "a.txt" "text/plain".
Definition entry_b : file_data := FileData "id-b" "b.txt" "text/plain".
Definition entry_t : file_data := FileData "id-t" "old.txt" "text/plain".

(** A listing endpoint whose first page carries a cursor and whose second
    call fails. *)
Definition flaky_service : service :=
  {| files_list := fun req =>
       match pageToken req with
       | None => Returns (ResultsPage (Some [entry_a]) (Some "p"))
       | Some _ => Raises HttpError
       end;
     files_get := fun _ => Raises HttpError;
     files_get_media := fun _ => ChunkError HttpError |}.

(** [s] ends with [suffix]. *)
Fixpoint ends_with (suffix s : string) : bool :=
  String.eqb suffix s ||
  match s with
  | EmptyString => false
  | String _ s' => ends_with suffix s'
  end.

(** A folder that holds [entry_a] and, in the trash, [entry_t]; the
    endpoint leaves the trashed entry out when the query asks for it. *)
Definition in_trash (f : file_data) : bool := String.eqb (fd_id f) "id-t".

Definition trash_aware_service : service :=
  {| files_list := fun req =>
       if ends_with " and trashed=false" (q req)
       then Returns (ResultsPage (Some [entry_a]) None)
       else Returns (ResultsPage (Some [entry_a; entry_t]) None);
     files_get := fun _ => Raises HttpError;
     files_get_media := fun _ => ChunkError HttpError |}.

End Mock.

Module MockTree.
Import Mock.

Definition entry_sub : file_data := FileData "id-sub" "sub" folder_mime.
Definition entry_bad : file_data := FileData "id-bad" "bad" folder_mime.
Definition entry_x : file_data := FileData "id-x" "x.bin" "application/octet-stream".

(** A shared folder [root] that holds the folder [bad], whose listing
    fails, the file [x.bin], whose transfer fails, the file [a.txt] and the
    folder [sub], which holds [b.txt]. *)
Definition tree_service : service :=
  {| files_list := fun req =>
       if String.eqb (q req) (list_query "root") then
         Returns (ResultsPage (Some [entry_bad; entry_x; entry_a; entry_sub]) None)
       else if String.eqb (q req) (list_query "id-sub") then
         Returns (ResultsPage (Some [entry_b]) None)
       else if String.eqb (q req) (list_query "id-bad") then Raises HttpError
       else Returns (ResultsPage (Some []) None);
     files_get := fun _ => Returns "text/plain";
     files_get_media := fun file_id =>
       if String.eqb file_id "id-x" then ChunkError HttpError
       else if String.eqb file_id "id-a" then Chunk "he" (LastChunk "llo")
       else LastChunk "bee" |}.

Definition tree_rank (folder_id : string) : nat :=
  if String.eqb (list_query folder_id) (list_query "root") then 1 else 0.

Definition page_rank (folder_id : string) (tok : option string) : nat := 0.

(** An operating system that refuses nothing. *)
Definition kind_os : os_env := OsEnv (fun _ => false) (fun _ => 0) (fun _ => false).

(** A machine with an empty download directory and a service-account file. *)
Definition fresh_world : world :=
  World {[ "dest" ]} {[ "service_account.json" := "{}" ]} [].

(** Client libraries that accept the service-account file and build the
    client of the tree above. *)
Definition tree_lib : auth_lib :=
  {| from_service_account_file := fun _ => Returns (Creds true false None "robot");
     from_authorized_user_file := fun _ => Raises OtherException;
     refresh := fun _ => Raises OtherException;
     to_json := fun _ => "{}";
     build := fun _ => Returns tree_service |}.

(** The same, for a shared folder that holds nothing. *)
Definition empty_lib : auth_lib :=
  {| from_service_account_file := fun _ => Returns (Creds true false None "robot");
     from_authorized_user_file := fun _ => Raises OtherException;
     refresh := fun _ => Raises OtherException;
     to_json := fun _ => "{}";
     build := fun _ => Returns (paged_service [[]]) |}.

End MockTree.

(* ===================================================================== *)
(** ** Comparing two states of the file system *)
(* ===================================================================== *)

(** The same directories and the same file names (contents may differ). *)
Definition same_paths (w w' : world) : Prop :=
  fs_dirs w' = fs_dirs w ∧ dom (fs_files w') = dom (fs_files w).

(** The directories [os.makedirs] was asked for, in order. *)
Definition makedirs_issued (evs : list event) : list string :=
  omap (fun ev => match ev with Makedirs p => Some p | _ => None end) evs.

(** [w'] comes after [w]: its trace continues the trace of [w], and the
    directory creations issued in between are [made]. *)
Definition follows (w w' : world) (made : list string) : Prop :=
  ∃ evs, trace w' = trace w ++ evs ∧ makedirs_issued evs = made.

(** What a transfer writes when it completes. *)
Fixpoint media_content (m : media) : option string :=
  match m with
  | LastChunk data => Some data
  | Chunk data rest => String.append data <$> media_content rest
  | ChunkError _ => None
  end.

(** What [os.path.join] puts in front of a relative name. *)
Definition dir_prefix (a : string) : string :=
  if String.eqb a "" || PyString.endswith_char "/"%char a then a else a +:+ "/".

(** The remote tree [root/{a.txt, sub/{b.txt}}] as the client shows it:
    [sub] lists the one entry [b], and the two files can be fetched. *)
Record two_level_tree (svc : service) (a sub b : file_data)
    (content_a content_b : string) : Prop := TwoLevelTree {
  name_a : fd_name a = "a.txt";
  name_sub : fd_name sub = "sub";
  name_b : fd_name b = "b.txt";
  sub_is_folder : fd_mimeType sub = folder_mime;
  a_is_file : fd_mimeType a ≠ folder_mime;
  b_is_file : fd_mimeType b ≠ folder_mime;
  sub_lists_b : Remote.serves_pages svc (fd_id sub) None [[b]];
  meta_a : ∃ mime, files_get svc (fd_id a) = Returns mime ∧ mime ≠ folder_mime;
  meta_b : ∃ mime, files_get svc (fd_id b) = Returns mime ∧ mime ≠ folder_mime;
  media_a : media_content (files_get_media svc (fd_id a)) = Some content_a;
  media_b : media_content (files_get_media svc (fd_id b)) = Some content_b
}.

(** A destination the walk can write to: [sub] is not there yet, the two
    file paths are not directories, and the system refuses nothing the
    walk needs. *)
Record usable_destination (os : os_env) (root : string) (w : world) : Prop :=
  UsableDestination {
  sub_absent : path_exists (os_path_join root "sub") w = false;
  a_not_dir : os_path_join root "a.txt" ∉ fs_dirs w;
  b_not_dir : os_path_join (os_path_join root "sub") "b.txt" ∉ fs_dirs w;
  makedirs_sub_ok : makedirs_fails os (os_path_join root "sub") = false;
  open_a_ok : open_fails os (os_path_join root "a.txt") = false;
  open_b_ok : open_fails os (os_path_join (os_path_join root "sub") "b.txt") = false
}.

(* ===================================================================== *)
(** ** The front ends: the worker of the window and the command line *)
(* ===================================================================== *)

(** What a front end shows, in order: lines printed by the command line,
    and, for the window, the log record of [perform_download] and the
    callbacks it queues for the main loop with [self.after]. *)
Inductive front_event : Type :=
  | Print (line : string)
  | LogCreateDownloadDirError (e : exn)
  | UpdateStatus (text : string)
  | EnableDownloadButton.

(** The machine of the run together with what the front end has shown. *)
Record front : Type := Front {
  shown : list front_event;
  machine : world
}.

Definition F (A : Type) : Type := front → outcome A * front.

#[global] Instance F_ret : MRet F := fun A a s => (Ret a, s).
#[global] Instance F_bind : MBind F := fun A B f m s =>
  match m s with
  | (Ret a, s') => f a s'
  | (Raise e, s') => (Raise e, s')
  | (OutOfFuel, s') => (OutOfFuel, s')
  end.

Definition show (ev : front_event) : F unit := fun s =>
  (Ret tt, Front (shown s ++ [ev]) (machine s)).

(** A step of the core, run from a front end. *)
Definition on_machine {A} (m : M A) : F A := fun s =>
  let r := m (machine s) in (r.1, Front (shown s) r.2).

(** [try: body  except ...:] in a front end. *)
Definition front_try {A} (body : F A) (handler : exn → option (F A)) : F A := fun s =>
  match body s with
  | (Raise e, s') =>
      match handler e with
      | Some h => h s'
      | None => (Raise e, s')
      end
  | r => r
  end.

(** The defaults of [download_files_from_shared_link]. *)
Definition default_service_account_file : string := "service_account.json".
Definition default_token_path : string := "token.json".

(** [DriveDownloaderGUI.perform_download], the body of the worker thread. *)
Definition perform_download (fuel pfuel : nat) (lib : auth_lib) (os : os_env)
    (shared_url download_path : string) (use_service_account : bool) : F unit :=
  there ← on_machine (os_path_exists download_path);
  ready ← (if negb there then
             front_try
               (on_machine (os_makedirs os download_path);; mret true)
               (fun e =>
                  match e with
                  | OSError =>
                      Some (show (LogCreateDownloadDirError e);;
                            show (UpdateStatus "Error: Could not create download directory.");;
                            show EnableDownloadButton;;
                            mret false)
                  | _ => None
                  end)
           else mret true);
  if (ready : bool) then
    success ← on_machine
      (download_files_from_shared_link fuel pfuel lib os shared_url download_path
         use_service_account default_service_account_file default_token_path);
    (if (success : bool) then show (UpdateStatus "Download complete!")
     else show (UpdateStatus "Download failed."));;
    show EnableDownloadButton
  else mret tt.

(** How the [__main__] block ends: [sys.exit(code)], or the window. *)
Inductive exit_status : Type :=
  | Exit (code : Z)
  | RunGui.

(** [str(b)] for a boolean, as an f-string renders it. *)
Definition py_bool_str (b : bool) : string := if b then "True" else "False".

Definition usage_line : string :=
  "Usage: python script.py <shared_url> <download_path> [--no-service-account]".

(** The [if __name__ == "__main__":] block, as a function of [sys.argv]. *)
Definition main (fuel pfuel : nat) (lib : auth_lib) (os : os_env)
    (argv : list string) : F exit_status :=
  if bool_decide (1 < length argv) then
    if bool_decide (length argv < 3) then
      show (Print usage_line);; mret (Exit 1)
    else
      match argv !! 1, argv !! 2 with
      | Some shared_url, Some download_path =>
          let use_service_account :=
            negb (bool_decide ("--no-service-account" ∈ argv)) in
          show (Print ("Downloading from " +:+ shared_url +:+ " to " +:+ download_path
                       +:+ " using service account: "
                       +:+ py_bool_str use_service_account));;
          success ← on_machine
            (download_files_from_shared_link fuel pfuel lib os shared_url download_path
               use_service_account default_service_account_file default_token_path);
          (if (success : bool) then show (Print "Download completed successfully.")
           else show (Print "Download failed."));;
          mret (Exit 0)
      | _, _ => fun s => (Raise IndexError, s)
      end
  else mret RunGui.

(* ===================================================================== *)
(** ** Descriptions used in the further properties *)
(* ===================================================================== *)

(** What a transfer has written when it ends, completed or not. *)
Fixpoint media_written (m : media) : string :=
  match m with
  | LastChunk data => data
  | Chunk data rest => data +:+ media_written rest
  | ChunkError _ => ""
  end.

(** The exception a transfer ends with, if it does not complete. *)
Fixpoint media_error (m : media) : option exn :=
  match m with
  | LastChunk _ => None
  | Chunk _ rest => media_error rest
  | ChunkError e => Some e
  end.

(** [calls] is a run of listing calls for [folder_id] in which the first
    carries the cursor [tok] and each later one the cursor of the page
    that answered the call before it. *)
Fixpoint cursor_chain (svc : service) (folder_id : string) (tok : option string)
    (calls : list event) : Prop :=
  match calls with
  | [] => True
  | call :: rest =>
      call = CallList (list_req folder_id tok) ∧
      match rest with
      | [] => True
      | _ :: _ =>
          ∃ page, files_list svc (list_req folder_id tok) = Returns page ∧
                  cursor_chain svc folder_id (nextPageToken page) rest
      end
  end.

(** The events that reach the Drive service. *)
Definition is_drive_call (ev : event) : bool :=
  match ev with
  | CallList _ | CallGet _ | CallGetMedia _ => true
  | _ => false
  end.

(** The events of a walk that was refused its directory [p] for each of
    [n] entries. *)
Fixpoint refused_attempts (p : string) (n : nat) : list event :=
  match n with
  | O => []
  | S n' => Makedirs p :: Log (LogCreateDirectoryFailed p OSError) :: refused_attempts p n'
  end.

(** The log record a download ends with, once its file is open. *)
Definition transfer_log_record (file_name file_path : string) (m : media) : log_record :=
  match media_error m with
  | None => LogDownloaded file_name file_path
  | Some HttpError => LogDownloadHttpError file_name HttpError
  | Some e => LogDownloadUnexpected file_name e
  end.

(** The events a run can leave before it has a client: log records and
    the rewrite of the token file. *)
Definition before_client (ev : event) : bool :=
  match ev with
  | Log _ | OpenWrite _ => true
  | _ => false
  end.

(** The log record of a configuration error, in the order the checks are
    made. *)
Definition configuration_error (shared_url download_path : string) : log_record :=
  if String.eqb shared_url "" then LogUrlRequired
  else if String.eqb download_path "" then LogPathRequired
  else LogInvalidUrl.

Module MockTransfer.
Import Mock.

(** A client whose transfers deliver two bytes and then fail. *)
Definition cut_off_service : service :=
  {| files_list := fun _ => Returns (ResultsPage (Some []) None);
     files_get := fun _ => Returns "text/plain";
     files_get_media := fun _ => Chunk "he" (ChunkError HttpError) |}.

(** A machine on which [dest/a.txt] is there already. *)
Definition used_world : world :=
  World {[ "dest" ]} {[ "dest/a.txt" := "old content" ]} [].

(** An operating system that refuses the last directory of every
    [os.makedirs], once the intermediate ones are made. *)
Definition leaf_strict_os : os_env :=
  OsEnv (fun _ => true) (fun p => length (ancestors p)) (fun _ => false).

(** A machine with an expired token file and no service-account file. *)
Definition token_world : world :=
  World {[ "dest" ]} {[ "token.json" := "expired" ]} [].

(** Client libraries that read an expired, refreshable user credential
    from the token file and refresh it. *)
Definition refreshing_lib : auth_lib :=
  {| from_service_account_file := fun _ => Raises OtherException;
     from_authorized_user_file := fun _ => Returns (Creds false true (Some "r") "user");
     refresh := fun _ => Returns (Creds true false (Some "r") "user");
     to_json := fun c => if valid c then "fresh" else "expired";
     build := fun _ => Returns (paged_service [[]]) |}.

(** A client that has lost the connection: every call raises an
    exception that is not an [HttpError]. *)
Definition offline_service : service :=
  {| files_list := fun _ => Raises OtherException;
     files_get := fun _ => Raises OtherException;
     files_get_media := fun _ => ChunkError OtherException |}.

(** Client libraries that build that client. *)
Definition offline_lib : auth_lib :=
  {| from_service_account_file := fun _ => Returns (Creds true false None "robot");
     from_authorized_user_file := fun _ => Raises OtherException;
     refresh := fun _ => Raises OtherException;
     to_json := fun _ => "{}";
     build := fun _ => Returns offline_service |}.

(** A client that loses the connection once it has listed the shared
    folder [root], which holds the folder [sub] and the file [a.txt]: every
    later call raises an exception that is not an [HttpError]. *)
Definition dropping_service : service :=
  {| files_list := fun req =>
       if String.eqb (q req) (list_query "root") then
         Returns (ResultsPage (Some [MockTree.entry_sub; entry_a]) None)
       else Raises OtherException;
     files_get := fun _ => Raises OtherException;
     files_get_media := fun _ => ChunkError OtherException |}.

(** Client libraries that build that client. *)
Definition dropping_lib : auth_lib :=
  {| from_service_account_file := fun _ => Returns (Creds true false None "robot");
     from_authorized_user_file := fun _ => Raises OtherException;
     refresh := fun _ => Raises OtherException;
     to_json := fun _ => "{}";
     build := fun _ => Returns dropping_service |}.

End MockTransfer.

(* ===================================================================== *)
(** ** Lemmas on the string primitives *)
(* ===================================================================== *)

Section StringFacts.
Import PyString UrlSpec.

Lemma startswith_app (p s : string) : startswith p (p +:+ s) = true.
Proof.
  induction p as [|a p IH]; simpl; [done|].
  by rewrite Ascii.eqb_refl.
Qed.

Lemma drop_app (p s : string) : drop (String.length p) (p +:+ s) = s.
Proof. induction p as [|a p IH]; simpl; auto. Qed.

Lemma startswith_nil_r (p : string) : p ≠ "" → startswith p "" = false.
Proof. by destruct p. Qed.

Lemma split_scan_skip (sep : string) (k : nat) (s : string) :
  split_scan sep k s = split_scan sep 0 (drop k s).
Proof.
  revert s; induction k as [|k IH]; intros s; [done|].
  destruct s as [|c s]; simpl; [done|]. apply IH.
Qed.

Lemma split_scan_first (sep s : string) :
  (split_scan sep 0 s).1 = until (startswith sep) s.
Proof.
  induction s as [|c s IH].
  - simpl. by destruct (startswith sep "").
  - cbn [split_scan until].
    destruct (startswith sep (String c s)); simpl; [done|].
    by rewrite IH.
Qed.

Lemma split_first_after (sep s rest : string) :
  sep ≠ "" →
  first_after sep s = Some rest →
  split sep s = until (startswith sep) s :: split sep rest.
Proof.
  intros Hsep. unfold split. rewrite split_scan_first.
  induction s as [|c s IH]; intros Hfa.
  - simpl in Hfa. rewrite startswith_nil_r in Hfa; done.
  - cbn [first_after] in Hfa. cbn [split_scan].
    destruct (startswith sep (String c s)) eqn:Hs.
    + injection Hfa as <-. simpl. rewrite split_scan_skip.
      destruct sep as [|a sep]; [done|]. simpl.
      rewrite Nat.sub_0_r. by rewrite split_scan_first.
    + simpl. f_equal. specialize (IH Hfa). by injection IH.
Qed.

Lemma contains_first_after (sep s : string) :
  contains sep s = bool_decide (is_Some (first_after sep s)).
Proof.
  induction s as [|c s IH]; cbn [contains first_after].
  - by destruct (startswith sep "").
  - by destruct (startswith sep (String c s)).
Qed.

Lemma contains_true_first_after (sep s rest : string) :
  first_after sep s = Some rest → contains sep s = true.
Proof.
  intros H. rewrite contains_first_after, H.
  apply bool_decide_eq_true. eauto.
Qed.

Lemma contains_false_first_after (sep s : string) :
  contains sep s = false ↔ first_after sep s = None.
Proof.
  rewrite contains_first_after, bool_decide_eq_false.
  destruct (first_after sep s); split; intros H; try done.
  destruct H. eauto.
Qed.

Lemma first_after_nonempty (sep s rest : string) :
  sep ≠ "" → first_after sep s = Some rest → s ≠ "".
Proof.
  intros Hsep H ->. simpl in H. by rewrite startswith_nil_r in H.
Qed.

(** Cutting at a marker and then at a one-character delimiter is cutting
    at whichever comes first. *)
Lemma until_char_until (d : ascii) (stop : string → bool) (s : string) :
  until (startswith (String d "")) (until stop s)
  = until (fun t => startswith (String d "") t || stop t) s.
Proof.
  induction s as [|c s IH]; cbn [until].
  - destruct (stop ""); simpl; done.
  - destruct (stop (String c s)); simpl.
    + by rewrite orb_true_r.
    + rewrite orb_false_r. destruct (Ascii.eqb d c); [done|].
      f_equal. exact IH.
Qed.

Lemma until_empty (stop : string → bool) (s : string) :
  until stop s = "" ↔ s = "" ∨ stop s = true.
Proof.
  destruct s as [|c s]; cbn [until].
  - destruct (stop ""); intuition congruence.
  - destruct (stop (String c s)); intuition congruence.
Qed.

Lemma tails_after_complete (mid pre tail : string) :
  tail ∈ tails_after mid (pre +:+ mid +:+ tail).
Proof.
  induction pre as [|c pre IH].
  - change ("" +:+ mid +:+ tail) with (mid +:+ tail).
    destruct (mid +:+ tail) as [|c s] eqn:E; cbn [tails_after]; rewrite <- E;
      rewrite startswith_app, drop_app; set_solver.
  - change (String c pre +:+ mid +:+ tail) with (String c (pre +:+ mid +:+ tail)).
    cbn [tails_after]. set_solver.
Qed.

(** [shared_url.split(marker)[1].split(delim)[0]] on a string that holds
    the marker. *)
Lemma extract_after_str (m : string) (d : ascii) (s rest : string) :
  m ≠ "" →
  first_after m s = Some rest →
  extract_after m (String d "") (PyStr s)
  = Returns (until (fun t => startswith (String d "") t || startswith m t) rest).
Proof.
  intros Hm Hfa. unfold extract_after. cbn [py_split mbind result_bind].
  rewrite (split_first_after m s rest Hm Hfa).
  unfold py_index at 1. cbn [lookup list_lookup].
  unfold split. simpl. rewrite !split_scan_first.
  by rewrite until_char_until.
Qed.

End StringFacts.

(* ===================================================================== *)
(** ** Properties of [get_shared_folder_id] *)
(* ===================================================================== *)

Section FolderId.
Import PyString UrlSpec.

Lemma string_app_assoc (a b c : string) : (a +:+ b) +:+ c = a +:+ b +:+ c.
Proof.
  induction a as [|x a IH]; [done|].
  change (String x ((a +:+ b) +:+ c) = String x (a +:+ b +:+ c)). by f_equal.
Qed.

Lemma folders_marker_nonempty : folders_marker ≠ "".
Proof. done. Qed.

Lemma folderview_marker_nonempty : folderview_marker ≠ "".
Proof. done. Qed.

(** On a string, the parser returns the text between the first occurrence
    of the selected marker and whichever comes first of the marker's own
    delimiter, another occurrence of the marker, and the end. *)
Lemma get_shared_folder_id_selected (url m : string) (d : ascii) (rest : string) :
  selected_marker url = Some (m, d, rest) →
  get_shared_folder_id (PyStr url)
  = Returns (Some (until (fun t => startswith (String d "") t || startswith m t) rest)).
Proof.
  unfold selected_marker. intros Hsel.
  destruct (first_after folders_marker url) as [r1|] eqn:H1.
  - injection Hsel as <- <- <-.
    pose proof (first_after_nonempty _ _ _ folders_marker_nonempty H1) as Hne.
    unfold get_shared_folder_id, get_shared_folder_id_try.
    cbn [truthy py_in mbind result_bind].
    apply String.eqb_neq in Hne. rewrite Hne. cbn [negb].
    rewrite (contains_true_first_after _ _ _ H1).
    change "?" with (String "?"%char "").
    by rewrite (extract_after_str _ _ _ _ folders_marker_nonempty H1).
  - destruct (first_after folderview_marker url) as [r2|] eqn:H2; [|done].
    injection Hsel as <- <- <-.
    pose proof (first_after_nonempty _ _ _ folderview_marker_nonempty H2) as Hne.
    unfold get_shared_folder_id, get_shared_folder_id_try.
    cbn [truthy py_in mbind result_bind].
    apply String.eqb_neq in Hne. rewrite Hne. cbn [negb].
    apply contains_false_first_after in H1. rewrite H1.
    rewrite (contains_true_first_after _ _ _ H2).
    change "&" with (String "&"%char "").
    by rewrite (extract_after_str _ _ _ _ folderview_marker_nonempty H2).
Qed.

(** On a string without a marker, the parser returns no identifier. *)
Lemma get_shared_folder_id_unselected (url : string) :
  selected_marker url = None → get_shared_folder_id (PyStr url) = Returns None.
Proof.
  unfold selected_marker. intros Hsel.
  destruct (first_after folders_marker url) eqn:H1; [done|].
  destruct (first_after folderview_marker url) eqn:H2; [done|].
  apply contains_false_first_after in H1, H2.
  unfold get_shared_folder_id, get_shared_folder_id_try.
  cbn [truthy py_in mbind result_bind]. rewrite H1, H2.
  by destruct (negb (negb (String.eqb url ""))).
Qed.

(** C1, as amended: for every URL that contains a marker, the parser
    returns exactly the text between the first occurrence of the selected
    marker (["folders/"] when present, ["folderview?id="] otherwise) and
    whichever comes first of that marker's own delimiter (['?'] for
    ["folders/"], ['&'] for ["folderview?id="]), the next occurrence of
    the marker itself, and the end of the string. *)
Theorem folder_id_between_first_marker_and_its_delimiter
    (url m : string) (d : ascii) (rest : string) :
  selected_marker url = Some (m, d, rest) →
  get_shared_folder_id (PyStr url)
  = Returns (Some (until (fun t => startswith (String d "") t || startswith m t) rest)).
Proof. apply get_shared_folder_id_selected. Qed.

Lemma folder_id_between_first_marker_and_its_delimiter_witness :
  get_shared_folder_id (PyStr "https://drive.google.com/drive/folders/abc123?usp=sharing")
  = Returns (Some "abc123").
Proof.
  apply (folder_id_between_first_marker_and_its_delimiter
           "https://drive.google.com/drive/folders/abc123?usp=sharing"
           folders_marker "?"%char "abc123?usp=sharing").
  reflexivity.
Defined.

(** C1 as the specification states it fails: on a URL in which
    ["folders/"] occurs twice the parser stops at the second occurrence,
    so what it returns is followed neither by ['?'] or ['&'] nor by the
    end of the string. *)
Lemma folder_id_not_always_up_to_delimiter :
  ¬ (∀ url : string,
       contains folders_marker url = true ∨ contains folderview_marker url = true →
       ∃ r, get_shared_folder_id (PyStr url) = Returns (Some r) ∧
            between_marker_and_delimiter url r).
Proof.
  intros H.
  destruct (H "https://drive.google.com/drive/folders/abc/folders/def")
    as (r & Hr & m & pre & tail & Hm & Hurl & Htail); [by left|].
  vm_compute in Hr. injection Hr as <-.
  rewrite <- (string_app_assoc m "abc/" tail) in Hurl.
  pose proof (tails_after_complete (m +:+ "abc/") pre tail) as Hin.
  rewrite <- Hurl in Hin.
  destruct Hm as [-> | ->]; vm_compute in Hin.
  - apply list_elem_of_singleton in Hin. subst tail.
    destruct Htail as [Ht | [Ht | Ht]]; discriminate Ht.
  - by apply elem_of_nil in Hin.
Qed.

(** Each shape has one delimiter: an ['&'] does not end the identifier of
    a ["folders/"] URL. *)
Example folders_id_keeps_ampersand :
  get_shared_folder_id (PyStr "https://drive.google.com/drive/folders/abc&usp=sharing")
  = Returns (Some "abc&usp=sharing").
Proof. reflexivity. Qed.

(** C8, as amended: whenever the parser returns an identifier for a
    string, the identifier is empty exactly when the text after the first
    occurrence of the selected marker is empty or begins with the marker's
    delimiter or with the marker itself; in every other case it is
    non-empty. *)
Theorem folder_id_empty_iff (url r : string) :
  get_shared_folder_id (PyStr url) = Returns (Some r) →
  ∃ m d rest,
    selected_marker url = Some (m, d, rest) ∧
    (r = "" ↔ rest = "" ∨ startswith (String d "") rest = true
                        ∨ startswith m rest = true).
Proof.
  intros Hr.
  destruct (selected_marker url) as [[[m d] rest]|] eqn:Hsel.
  - rewrite (get_shared_folder_id_selected _ _ _ _ Hsel) in Hr.
    injection Hr as <-. exists m, d, rest. split; [done|].
    rewrite until_empty, orb_true_iff. tauto.
  - by rewrite (get_shared_folder_id_unselected _ Hsel) in Hr.
Qed.

Lemma folder_id_empty_iff_witness :
  ∃ m d rest,
    selected_marker "https://drive.google.com/drive/folders/abc123?usp=sharing"
    = Some (m, d, rest) ∧
    ("abc123" = "" ↔ rest = "" ∨ startswith (String d "") rest = true
                               ∨ startswith m rest = true).
Proof.
  apply (folder_id_empty_iff
           "https://drive.google.com/drive/folders/abc123?usp=sharing" "abc123").
  reflexivity.
Defined.

(** C8 as the specification states it fails: a URL that ends with the
    marker yields the empty string, not the absence of an identifier. *)
Lemma folder_id_can_be_empty :
  ¬ (∀ url r : string,
       get_shared_folder_id (PyStr url) = Returns (Some r) → r ≠ "").
Proof.
  intros H.
  by apply (H "https://drive.google.com/drive/folders/" "").
Qed.

(** C9, as amended: for [None], for every string that is empty or holds
    neither marker, for every number, boolean and byte string, and for
    every list or tuple that does not hold a marker as an element, the
    parser returns no identifier and raises nothing. *)
Theorem no_marker_no_identifier (v : pyval) :
  marker_free v = true → get_shared_folder_id v = Returns None.
Proof.
  unfold get_shared_folder_id, get_shared_folder_id_try.
  destruct v as [|b|z|s|s|l|l]; cbn [marker_free truthy py_in mbind result_bind];
    intros Hfree.
  - done.
  - by destruct b.
  - by destruct (negb (negb (z =? 0)%Z)).
  - apply andb_true_iff in Hfree as [H1%negb_true_iff H2%negb_true_iff].
    rewrite H1, H2. by destruct (negb (negb (String.eqb s ""))).
  - by destruct (negb (negb (String.eqb s ""))).
  - apply andb_true_iff in Hfree as [H1%negb_true_iff H2%negb_true_iff].
    rewrite H1, H2. by destruct l.
  - apply andb_true_iff in Hfree as [H1%negb_true_iff H2%negb_true_iff].
    rewrite H1, H2. by destruct l.
Qed.

Lemma no_marker_no_identifier_witness :
  get_shared_folder_id (PyStr "https://drive.google.com/file/d/abc123/view") = Returns None.
Proof.
  apply (no_marker_no_identifier (PyStr "https://drive.google.com/file/d/abc123/view")).
  reflexivity.
Defined.

(** C9 as the specification states it fails: a list that holds the marker
    passes the membership test and then has no [split] method; the
    [AttributeError] is neither an [IndexError] nor a [TypeError]. *)
Lemma non_string_can_raise :
  ¬ (∀ v : pyval, malformed v → get_shared_folder_id v = Returns None).
Proof.
  intros H. specialize (H (PyList [PyStr "folders/"]) I). discriminate H.
Qed.

End FolderId.

(* ===================================================================== *)
(** ** Properties of [list_files_in_folder] *)
(* ===================================================================== *)

(** Unfolds the plumbing of the monad. *)
Ltac run_M :=
  cbv beta iota zeta delta
    [mbind mret M_bind M_ret emit logging lift raise out_of_fuel
     try_except except_Exception os_path_exists].

Section Listing.
Import Remote.

Variable svc : service.
Variable folder_id : string.

(** One iteration of the loop, call by call. *)
Lemma list_loop_step (n : nat) (results : list file_data) (tok : option string)
    (w : world) :
  list_loop (S n) svc folder_id results tok w =
  let w1 := push (CallList (list_req folder_id tok)) w in
  match files_list svc (list_req folder_id tok) with
  | Raises e => (Raise e, w1)
  | Returns page =>
      if continues page
      then list_loop n svc folder_id (results ++ page_items page) (nextPageToken page) w1
      else (Ret (results ++ page_items page), w1)
  end.
Proof.
  cbn [list_loop]. unfold call_list, continues, page_items. run_M.
  destruct (files_list svc (list_req folder_id tok)) as [page|e]; [|done].
  destruct page as [[items|] [t|]]; cbn; rewrite ?app_nil_r; try done.
  - destruct items as [|i items]; cbn; rewrite ?app_nil_r; [done|].
    by destruct (String.eqb t "").
  - destruct items as [|i items]; cbn; by rewrite ?app_nil_r.
Qed.

(** What a run of the loop leaves behind: the file system is untouched,
    the trace grows by listing calls for this folder only, and what is
    returned was either there before or came from a page. *)
Lemma list_loop_spec (fuel : nat) (results : list file_data) (tok : option string)
    (w : world) :
  ∃ o evs,
    list_loop fuel svc folder_id results tok w
    = (o, World (fs_dirs w) (fs_files w) (trace w ++ evs)) ∧
    Forall (fun ev => ∃ t, ev = CallList (list_req folder_id t)) evs ∧
    (∀ items f, o = Ret items → f ∈ items →
       f ∈ results ∨
       ∃ t page, files_list svc (list_req folder_id t) = Returns page ∧
                 f ∈ page_items page).
Proof.
  revert results tok w. induction fuel as [|n IH]; intros results tok w.
  - exists OutOfFuel, []. rewrite app_nil_r. by destruct w.
  - rewrite list_loop_step. cbn zeta.
    destruct (files_list svc (list_req folder_id tok)) as [page|e] eqn:Hcall.
    + destruct (continues page).
      * destruct (IH (results ++ page_items page) (nextPageToken page)
                    (push (CallList (list_req folder_id tok)) w))
          as (o & evs & Heq & Hevs & Hitems).
        exists o, (CallList (list_req folder_id tok) :: evs).
        split; [|split].
        -- rewrite Heq. cbn. by rewrite <- app_assoc.
        -- constructor; eauto.
        -- intros items f Ho Hf. destruct (Hitems items f Ho Hf) as [Hin|Hin]; [|by right].
           apply elem_of_app in Hin as [Hin|Hin]; [by left|right; eauto].
      * exists (Ret (results ++ page_items page)), [CallList (list_req folder_id tok)].
        split; [done|split].
        -- constructor; eauto.
        -- intros items f [= <-] Hin.
           apply elem_of_app in Hin as [Hin|Hin]; [by left|right; eauto].
    + exists (Raise e), [CallList (list_req folder_id tok)].
      split; [done|split]; [constructor; eauto|done].
Qed.

(** The loop never runs out of fuel when the measure of the cursor fits. *)
Lemma list_loop_enough_fuel (rank : string → nat) (prank : string → option string → nat)
    (fuel : nat) (results : list file_data) (tok : option string) (w : world) :
  remote_finite svc rank prank →
  prank folder_id tok < fuel →
  (list_loop fuel svc folder_id results tok w).1 ≠ OutOfFuel.
Proof.
  intros Hfin. revert results tok w.
  induction fuel as [|n IH]; intros results tok w Hlt; [lia|].
  rewrite list_loop_step. cbn zeta.
  destruct (files_list svc (list_req folder_id tok)) as [page|e] eqn:Hcall; [|done].
  destruct (continues page) eqn:Hcont; [|done].
  apply IH. pose proof (pages_decrease _ _ _ Hfin _ _ _ Hcall Hcont). lia.
Qed.

(** The wrapper around the loop: same frame, and the only log record it
    can add is the one of the [HttpError] handler. *)
Lemma list_files_in_folder_spec (fuel : nat) (w : world) :
  ∃ o evs,
    list_files_in_folder fuel svc folder_id w
    = (o, World (fs_dirs w) (fs_files w) (trace w ++ evs)) ∧
    Forall (fun ev => (∃ t, ev = CallList (list_req folder_id t))
                      ∨ ev = Log (LogListingError HttpError)) evs ∧
    o ≠ Raise HttpError ∧
    (o = OutOfFuel → (list_loop fuel svc folder_id [] None w).1 = OutOfFuel) ∧
    (∀ e, o = Raise e →
       ∃ req, files_list svc req = Raises e) ∧
    (∀ items f, o = Ret items → f ∈ items →
       ∃ t page, files_list svc (list_req folder_id t) = Returns page ∧
                 f ∈ page_items page).
Proof.
  unfold list_files_in_folder, try_except.
  destruct (list_loop_spec fuel [] None w) as (o & evs & Heq & Hevs & Hitems).
  rewrite Heq.
  assert (Hraise : ∀ e, o = Raise e → ∃ req, files_list svc req = Raises e).
  { clear Hitems Hevs. revert Heq. generalize (@nil file_data) (@None string).
    revert w evs. induction fuel as [|n IH]; intros w evs results tok Heq e ->.
    - done.
    - rewrite list_loop_step in Heq. cbn zeta in Heq.
      destruct (files_list svc (list_req folder_id tok)) as [page|e'] eqn:Hcall.
      + destruct (continues page); [|done].
        destruct (list_loop_spec n (results ++ page_items page) (nextPageToken page)
                    (push (CallList (list_req folder_id tok)) w))
          as (o' & evs' & Heq' & _).
        rewrite Heq' in Heq. injection Heq as -> _. eapply IH; eauto.
      + injection Heq as <- _. eauto. }
  destruct o as [items|e|].
  - exists (Ret items), evs. repeat split; try done.
    + eapply Forall_impl; [exact Hevs|]. by left.
    + intros items' f [= <-] Hf. destruct (Hitems items f eq_refl Hf) as [Hin|Hin]; [|done].
      by apply elem_of_nil in Hin.
  - destruct (decide (e = HttpError)) as [->|Hne].
    + exists (Ret []), (evs ++ [Log (LogListingError HttpError)]).
      run_M. unfold push. cbn. rewrite <- app_assoc. repeat split; try done.
      * apply Forall_app. split; [eapply Forall_impl; [exact Hevs|]; by left|].
        constructor; [by right|constructor].
      * intros items f [= <-] Hf. by apply elem_of_nil in Hf.
    + exists (Raise e), evs. repeat split; try done.
      * by destruct e.
      * eapply Forall_impl; [exact Hevs|]. by left.
      * congruence.
  - exists OutOfFuel, evs. repeat split; try done.
    eapply Forall_impl; [exact Hevs|]. by left.
Qed.

End Listing.

Section ListingClaims.
Import Remote Mock.

Lemma serves_pages_loop (svc : service) (folder_id : string) (tok : option string)
    (pages : list (list file_data)) :
  serves_pages svc folder_id tok pages →
  ∀ fuel results w,
    length pages ≤ fuel →
    (list_loop fuel svc folder_id results tok w).1
    = Ret (results ++ concat_until_empty pages).
Proof.
  induction 1 as [tok page Hcall Htok | tok page pages Hcall Htok Hrest IH];
    intros fuel results w Hfuel; (destruct fuel as [|n]; [cbn in Hfuel; lia|]);
    rewrite list_loop_step; cbn zeta; rewrite Hcall.
  - unfold continues. rewrite Htok, andb_false_r. cbn.
    by destruct (page_items page); rewrite ?app_nil_r.
  - unfold continues. rewrite Htok, andb_true_r.
    assert (page_falsy page = false) as ->.
    { destruct page as [[?|] [?|]]; done. }
    cbn [negb andb concat_until_empty].
    destruct (page_items page) as [|i items] eqn:Hitems.
    + by rewrite app_nil_r.
    + rewrite IH; [|cbn in Hfuel; lia]. by rewrite <- app_assoc.
Qed.

Lemma concat_until_empty_full (pages : list (list file_data)) :
  (∀ i page, pages !! i = Some page → S i < length pages → page ≠ []) →
  concat_until_empty pages = concat pages.
Proof.
  induction pages as [|page pages IH]; intros Hne; [done|].
  destruct page as [|x page].
  - destruct pages as [|page' pages]; [done|].
    by destruct (Hne 0 [] eq_refl); [cbn; lia|].
  - cbn. do 2 f_equal. apply IH. intros i p Hi Hlt.
    apply (Hne (S i) p Hi). cbn. lia.
Qed.

Lemma cursor_length (k : nat) : String.length (cursor k) = k.
Proof. induction k; cbn; auto. Qed.

Lemma paged_service_serves (pages : list (list file_data)) (folder_id : string) (n k : nat) :
  length pages = k + S n →
  serves_pages (paged_service pages) folder_id (cursor_of k) (drop k pages).
Proof.
  revert k. induction n as [|n IH]; intros k Hlen.
  - destruct (lookup_lt_is_Some_2 pages k) as [items Hk]; [lia|].
    rewrite (drop_S _ _ _ Hk), drop_ge by lia.
    change items with (page_items (ResultsPage (Some items) None)).
    apply serves_last; [|done].
    cbn. replace (from_option String.length 0 (cursor_of k)) with k
      by (destruct k; cbn; by rewrite ?cursor_length).
    rewrite Hk, bool_decide_eq_false_2 by lia. done.
  - destruct (lookup_lt_is_Some_2 pages k) as [items Hk]; [lia|].
    rewrite (drop_S _ _ _ Hk).
    change items with (page_items (ResultsPage (Some items) (Some (cursor (S k))))).
    apply serves_more; [|done|].
    + cbn. replace (from_option String.length 0 (cursor_of k)) with k
        by (destruct k; cbn; by rewrite ?cursor_length).
      rewrite Hk, bool_decide_eq_true_2 by lia. done.
    + apply (IH (S k)). lia.
Qed.

(** C3, as amended: for every listing source that serves N pages,
    [list_files_in_folder] returns, in page order and each entry once, the
    entries of the pages that come before the first empty page; these are
    all N pages when no page before the last is empty.  The loop goes on
    while the page just read has entries and carries a cursor. *)
Theorem listing_concatenates_pages_until_empty (svc : service) (folder_id : string)
    (pages : list (list file_data)) (fuel : nat) (w : world) :
  serves_pages svc folder_id None pages →
  length pages ≤ fuel →
  (list_files_in_folder fuel svc folder_id w).1 = Ret (concat_until_empty pages) ∧
  ((∀ i page, pages !! i = Some page → S i < length pages → page ≠ []) →
   (list_files_in_folder fuel svc folder_id w).1 = Ret (concat pages)).
Proof.
  intros Hserves Hfuel.
  assert ((list_files_in_folder fuel svc folder_id w).1 = Ret (concat_until_empty pages))
    as Hres.
  { unfold list_files_in_folder, try_except.
    pose proof (serves_pages_loop _ _ _ _ Hserves fuel [] w Hfuel) as Hloop.
    destruct (list_loop fuel svc folder_id [] None w) as [o w']. cbn in Hloop.
    by subst o. }
  split; [done|]. intros Hne. by rewrite Hres, concat_until_empty_full.
Qed.

Lemma listing_concatenates_pages_until_empty_witness :
  (list_files_in_folder 2 (paged_service [[entry_a]; [entry_b]]) "root"
     (World ∅ ∅ [])).1 = Ret [entry_a; entry_b] ∧
  ((∀ i page, [[entry_a]; [entry_b]] !! i = Some page →
              S i < length [[entry_a]; [entry_b]] → page ≠ []) →
   (list_files_in_folder 2 (paged_service [[entry_a]; [entry_b]]) "root"
      (World ∅ ∅ [])).1 = Ret [entry_a; entry_b]).
Proof.
  apply (listing_concatenates_pages_until_empty
           (paged_service [[entry_a]; [entry_b]]) "root" [[entry_a]; [entry_b]] 2).
  - apply (paged_service_serves [[entry_a]; [entry_b]] "root" 1 0). reflexivity.
  - cbn. lia.
Defined.

(** C3 as the specification states it fails: a source of three pages whose
    second page is empty but carries a cursor is read up to that page only,
    and the entries of the third page are not returned. *)
Lemma listing_stops_at_empty_page :
  ¬ (∀ (svc : service) (folder_id : string) (pages : list (list file_data))
       (fuel : nat) (w : world),
       serves_pages svc folder_id None pages →
       length pages ≤ fuel →
       (list_files_in_folder fuel svc folder_id w).1 = Ret (concat pages)).
Proof.
  intros H.
  specialize (H (paged_service [[entry_a]; []; [entry_b]]) "root"
                [[entry_a]; []; [entry_b]] 3 (World ∅ ∅ [])).
  assert ((list_files_in_folder 3 (paged_service [[entry_a]; []; [entry_b]]) "root"
             (World ∅ ∅ [])).1 = Ret [entry_a]) as Hrun by reflexivity.
  rewrite Hrun in H.
  assert (Ret [entry_a] = Ret (concat [[entry_a]; []; [entry_b]])) as Habs.
  { apply H; [|cbn; lia].
    apply (paged_service_serves [[entry_a]; []; [entry_b]] "root" 2 0). reflexivity. }
  discriminate Habs.
Qed.

Lemma listing_raises_loop (svc : service) (folder_id : string) (n : nat)
    (tok : option string) (e : exn) :
  listing_raises svc folder_id n tok e →
  ∀ fuel results w,
    n ≤ fuel →
    ∃ evs,
      list_loop fuel svc folder_id results tok w
      = (Raise e, World (fs_dirs w) (fs_files w) (trace w ++ evs)) ∧
      Forall (fun ev => ∃ t, ev = CallList (list_req folder_id t)) evs.
Proof.
  induction 1 as [tok e Hcall | n tok page e Hcall Hcont Hrest IH];
    intros fuel results w Hfuel; (destruct fuel as [|k]; [lia|]);
    rewrite list_loop_step; cbn zeta; rewrite Hcall.
  - exists [CallList (list_req folder_id tok)]. split; [done|].
    constructor; eauto.
  - rewrite Hcont.
    destruct (IH k (results ++ page_items page)
                (push (CallList (list_req folder_id tok)) w)) as (evs & Heq & Hevs); [lia|].
    exists (CallList (list_req folder_id tok) :: evs). split.
    + rewrite Heq. cbn. by rewrite <- app_assoc.
    + constructor; eauto.
Qed.

(** C5: whenever a listing call raises the remote-API error ([HttpError],
    the class the handler names), on the first page or on a later one,
    [list_files_in_folder] catches it, logs it and returns the empty
    sequence, whatever had been collected; nothing reaches the caller. *)
Theorem listing_http_error_returns_empty (svc : service) (folder_id : string)
    (n fuel : nat) (w : world) :
  listing_raises svc folder_id n None HttpError →
  n ≤ fuel →
  ∃ evs,
    list_files_in_folder fuel svc folder_id w
    = (Ret [], World (fs_dirs w) (fs_files w)
                 (trace w ++ evs ++ [Log (LogListingError HttpError)])) ∧
    Forall (fun ev => ∃ t, ev = CallList (list_req folder_id t)) evs.
Proof.
  intros Hraises Hfuel.
  destruct (listing_raises_loop _ _ _ _ _ Hraises fuel [] w Hfuel) as (evs & Heq & Hevs).
  exists evs. split; [|done].
  unfold list_files_in_folder, try_except. rewrite Heq. run_M. unfold push. cbn.
  by rewrite <- app_assoc.
Qed.

Lemma listing_http_error_returns_empty_witness :
  ∃ evs,
    list_files_in_folder 2 flaky_service "root" (World ∅ ∅ [])
    = (Ret [], World ∅ ∅ ([] ++ evs ++ [Log (LogListingError HttpError)])) ∧
    Forall (fun ev => ∃ t, ev = CallList (list_req "root" t)) evs.
Proof.
  apply (listing_http_error_returns_empty flaky_service "root" 2 2 (World ∅ ∅ [])).
  - apply (raises_later flaky_service "root" 1 None
             (ResultsPage (Some [entry_a]) (Some "p")) HttpError);
      [reflexivity | reflexivity |].
    apply raises_now. reflexivity.
  - lia.
Defined.

(** An exception of another class is not caught by the listing. *)
Lemma listing_other_error_propagates (svc : service) (folder_id : string)
    (n fuel : nat) (w : world) (e : exn) :
  listing_raises svc folder_id n None e →
  e ≠ HttpError →
  n ≤ fuel →
  (list_files_in_folder fuel svc folder_id w).1 = Raise e.
Proof.
  intros Hraises Hne Hfuel.
  destruct (listing_raises_loop _ _ _ _ _ Hraises fuel [] w Hfuel) as (evs & Heq & _).
  unfold list_files_in_folder, try_except. rewrite Heq. by destruct e.
Qed.

Lemma list_query_filters_trashed (folder_id : string) :
  filters_trashed (list_query folder_id).
Proof.
  exists ("'" +:+ folder_id +:+ "' in parents"). unfold list_query.
  by rewrite !string_app_assoc.
Qed.

Lemma ends_with_app (suffix s : string) : ends_with suffix (s +:+ suffix) = true.
Proof.
  induction s as [|c s IH].
  - change ("" +:+ suffix) with suffix.
    destruct suffix; cbn; [done|]. by rewrite Ascii.eqb_refl, String.eqb_refl.
  - change (String c s +:+ suffix) with (String c (s +:+ suffix)).
    cbn [ends_with]. rewrite IH. apply orb_true_r.
Qed.

Lemma trash_aware_service_honours : honours_trashed_filter trash_aware_service in_trash.
Proof.
  intros req page f [c Hq] Hcall Hf. cbn in Hcall.
  rewrite Hq, ends_with_app in Hcall. injection Hcall as <-.
  cbn in Hf. apply list_elem_of_singleton in Hf. by subst f.
Qed.

(** C10: every listing query [list_files_in_folder] issues is the one for
    the folder's children with the [trashed=false] conjunct; hence, with a
    service that applies the conjunct, no trashed child is among the
    entries returned, and none is handed to the walk. *)
Theorem listing_excludes_trashed (svc : service) (trashed : file_data → bool)
    (fuel : nat) (folder_id : string) (w : world) :
  honours_trashed_filter svc trashed →
  ∃ o evs,
    list_files_in_folder fuel svc folder_id w
    = (o, World (fs_dirs w) (fs_files w) (trace w ++ evs)) ∧
    (∀ req, CallList req ∈ evs →
       q req = list_query folder_id ∧ filters_trashed (q req)) ∧
    (∀ items f, o = Ret items → f ∈ items → trashed f = false).
Proof.
  intros Hhon.
  destruct (list_files_in_folder_spec svc folder_id fuel w)
    as (o & evs & Heq & Hevs & _ & _ & _ & Hitems).
  exists o, evs. split; [done|]. split.
  - intros req Hin. rewrite Forall_forall in Hevs.
    destruct (Hevs _ Hin) as [[t [= ->]]|[=]].
    split; [done|]. apply list_query_filters_trashed.
  - intros items f Ho Hf.
    destruct (Hitems items f Ho Hf) as (t & page & Hcall & Hin).
    eapply Hhon; [|exact Hcall|exact Hin]. apply list_query_filters_trashed.
Qed.

Lemma listing_excludes_trashed_witness :
  ∃ o evs,
    list_files_in_folder 1 trash_aware_service "root" (World ∅ ∅ [])
    = (o, World ∅ ∅ ([] ++ evs)) ∧
    (∀ req, CallList req ∈ evs →
       q req = list_query "root" ∧ filters_trashed (q req)) ∧
    (∀ items f, o = Ret items → f ∈ items → in_trash f = false).
Proof.
  apply (listing_excludes_trashed trash_aware_service in_trash 1 "root" (World ∅ ∅ [])).
  apply trash_aware_service_honours.
Defined.

End ListingClaims.

(* ===================================================================== *)
(** ** Properties of [download_file] and [process_files] *)
(* ===================================================================== *)

Section Walk.
Import Remote.

Variable os : os_env.
Variable svc : service.

(** A transfer ends: it completes or it raises. *)
Lemma download_chunks_ends (file_path : string) (m : media) (w : world) :
  (download_chunks file_path m w).1 ≠ OutOfFuel.
Proof.
  revert w. induction m as [data|data rest IH|e]; intros w; cbn; try done.
  run_M. unfold write_chunk. apply IH.
Qed.

(** [download_file] handles every exception of its body: it always returns
    normally. *)
Lemma download_file_returns (file_id file_name download_path : string) (w : world) :
  (download_file os svc file_id file_name download_path w).1 = Ret tt.
Proof.
  unfold download_file, call_get, call_get_media, open_write. run_M.
  destruct (files_get svc file_id) as [mime|e]; cbn.
  - destruct (String.eqb mime folder_mime); cbn; [done|].
    match goal with
    | |- context [path_exists ?p ?w'] => destruct (path_exists p w')
    end; cbn;
    match goal with
    | |- context [bool_decide ?P || ?b] => destruct (bool_decide P || b)
    end; cbn; try done;
    match goal with
    | |- context [download_chunks ?p ?m ?w'] =>
        pose proof (download_chunks_ends p m w') as Hends;
        destruct (download_chunks p m w') as [[[]|e|] w'']
    end; cbn in *; try done; by destruct e.
  - by destruct e.
Qed.

Lemma for_each_returns {A} (xs : list A) (body : A → M unit) (w : world) :
  (∀ x w', x ∈ xs → (body x w').1 = Ret tt) →
  (for_each xs body w).1 = Ret tt.
Proof.
  revert w. induction xs as [|x xs IH]; intros w Hbody; cbn; [done|].
  run_M. pose proof (Hbody x w ltac:(left)) as Hx.
  destruct (body x w) as [[[]|e|] w']; try done.
  apply IH. intros y w'' Hy. apply Hbody. by right.
Qed.

(** The directory step of the loop body either skips the entry or hands
    it to the second half, in a world of its choosing. *)
Lemma process_entry_cases (pfuel : nat)
    (recurse : list file_data → string → string → M unit)
    (download_path parent_folder_name : string) (f : file_data) (w : world) :
  (∃ w', process_entry pfuel os svc recurse download_path parent_folder_name f w
         = (Ret tt, w')) ∨
  (∃ w' current,
     process_entry pfuel os svc recurse download_path parent_folder_name f w
     = process_entry_by_type pfuel os svc recurse download_path parent_folder_name
         current f w').
Proof.
  unfold process_entry.
  destruct (negb (String.eqb parent_folder_name "")); [|right; eauto].
  run_M. destruct (negb (path_exists _ w)); [|right; eauto].
  unfold os_makedirs. destruct (path_exists _ w); cbn; [left; eauto|].
  destruct (makedirs_fails os _); cbn; [left; eauto | right; eauto].
Qed.

Section Finite.

Variable rank : string → nat.
Variable prank : string → option string → nat.
Variable pfuel : nat.
Hypothesis finite : remote_finite svc rank prank.
Hypothesis pages_bounded : ∀ folder_id tok, prank folder_id tok < pfuel.
Hypothesis only_http : list_raises_only_http svc.

(** On a finite remote side whose listing fails with [HttpError] only, a
    listing always returns, and the folders it returns rank lower. *)
Lemma list_files_in_folder_returns (folder_id : string) (w : world) :
  ∃ items w',
    list_files_in_folder pfuel svc folder_id w = (Ret items, w') ∧
    fs_dirs w' = fs_dirs w ∧ fs_files w' = fs_files w ∧
    (∀ f, f ∈ items → fd_mimeType f = folder_mime → rank (fd_id f) < rank folder_id).
Proof.
  destruct (list_files_in_folder_spec svc folder_id pfuel w)
    as (o & evs & Heq & _ & Hnot & Hout & Hraise & Hitems).
  destruct o as [items|e|].
  - exists items. eexists. split; [exact Heq|]. repeat split; try done.
    intros f Hf Hfolder. destruct (Hitems items f eq_refl Hf) as (t & page & Hcall & Hin).
    eapply folders_decrease; eauto.
  - destruct (Hraise e eq_refl) as [req Hreq].
    apply only_http in Hreq. by subst e.
  - exfalso. eapply list_loop_enough_fuel; [exact finite|apply pages_bounded|].
    by apply Hout.
Qed.

Lemma process_files_returns (fuel : nat) (files : list file_data)
    (download_path parent_folder_name : string) (w : world) :
  1 ≤ fuel →
  (∀ f, f ∈ files → fd_mimeType f = folder_mime → rank (fd_id f) + 2 ≤ fuel) →
  (process_files fuel pfuel os svc files download_path parent_folder_name w).1 = Ret tt.
Proof.
  revert files download_path parent_folder_name w.
  induction fuel as [|n IH]; intros files download_path parent w Hfuel Hrank; [lia|].
  cbn [process_files]. apply for_each_returns. intros f w' Hf.
  destruct (process_entry_cases pfuel (process_files n pfuel os svc)
              download_path parent f w') as [(w1 & ->) | (w1 & current & ->)]; [done|].
  unfold process_entry_by_type.
  destruct (String.eqb (fd_mimeType f) folder_mime) eqn:Hmime;
    [|apply download_file_returns].
  apply String.eqb_eq in Hmime. specialize (Hrank f Hf Hmime).
  run_M. cbn.
  destruct (list_files_in_folder_returns (fd_id f)
              (push (Log (LogProcessingFolder (fd_name f) (fd_id f))) w1))
    as (items & w2 & -> & _ & _ & Hitems).
  destruct items as [|g items]; [done|].
  apply IH; [lia|]. intros h Hh Hfolder. specialize (Hitems h Hh Hfolder). lia.
Qed.

End Finite.

End Walk.

Section WalkClaims.
Import Remote Mock MockTree.

Lemma process_files_cons (fuel pfuel : nat) (os : os_env) (svc : service)
    (f : file_data) (files : list file_data)
    (download_path parent_folder_name : string) (w : world) :
  (process_files fuel pfuel os svc [f] download_path parent_folder_name w).1 = Ret tt →
  process_files fuel pfuel os svc (f :: files) download_path parent_folder_name w
  = process_files fuel pfuel os svc files download_path parent_folder_name
      (process_files fuel pfuel os svc [f] download_path parent_folder_name w).2.
Proof.
  destruct fuel as [|n]; [done|]. cbn [process_files for_each]. run_M.
  by destruct (process_entry _ _ _ _ _ _ f w) as [[[]|e|] w'].
Qed.


Lemma tree_service_finite : remote_finite tree_service tree_rank page_rank.
Proof.
  split.
  - intros folder_id tok page Hcall Hcont. exfalso. cbn in Hcall.
    repeat match type of Hcall with
           | (if ?b then _ else _) = _ => destruct b
           end; try done; injection Hcall as <-; done.
  - intros folder_id tok page f Hcall Hin Hfolder.
    unfold tree_rank. cbn in Hcall.
    destruct (String.eqb (list_query folder_id) (list_query "root")).
    + injection Hcall as <-. cbn in Hin.
      repeat (apply elem_of_cons in Hin as [->|Hin]); try done;
        try (vm_compute; lia).
      by apply elem_of_nil in Hin.
    + repeat match type of Hcall with
             | (if ?b then _ else _) = _ => destruct b
             end; try done; injection Hcall as <-; cbn in Hin.
      * apply list_elem_of_singleton in Hin as ->. done.
      * by apply elem_of_nil in Hin.
Qed.

Lemma tree_service_only_http : list_raises_only_http tree_service.
Proof.
  intros req e Hcall. cbn in Hcall.
  repeat match type of Hcall with
         | (if ?b then _ else _) = _ => destruct b
         end; try done. by injection Hcall.
Qed.


(** On the mock tree the listing of [bad] and the transfer of [x.bin]
    fail, and the siblings that follow are downloaded all the same. *)
Example walk_after_failures :
  let w := (process_files 2 1 kind_os tree_service
              [entry_bad; entry_x; entry_a; entry_sub] "dest" "" fresh_world).2 in
  fs_files w !! "dest/a.txt" = Some "hello" ∧
  fs_files w !! "dest/sub/b.txt" = Some "bee" ∧
  Log (LogListingError HttpError) ∈ trace w ∧
  Log (LogDownloadHttpError "x.bin" HttpError) ∈ trace w.
Proof.
  cbv zeta. repeat split; try (vm_compute; reflexivity).
  - apply list_elem_of_In. vm_compute. tauto.
  - apply list_elem_of_In. vm_compute. tauto.
Qed.

End WalkClaims.

(* ===================================================================== *)
(** ** Properties of [download_files_from_shared_link] *)
(* ===================================================================== *)

Section Orchestrator.
Import Remote Mock MockTree.

Lemma same_paths_trans (w1 w2 w3 : world) :
  same_paths w1 w2 → same_paths w2 w3 → same_paths w1 w3.
Proof. intros [? ?] [? ?]. split; congruence. Qed.

Lemma same_paths_push (ev : event) (w : world) : same_paths w (push ev w).
Proof. done. Qed.

Lemma get_service_account_credentials_paths (lib : auth_lib) (filename : string)
    (w : world) :
  same_paths w (get_service_account_credentials lib filename w).2.
Proof.
  unfold get_service_account_credentials, read_file. run_M.
  destruct (negb (path_exists filename w)); cbn; [done|].
  destruct (bool_decide (filename ∈ fs_dirs w)); cbn; [done|].
  destruct (fs_files w !! filename); cbn; [|done].
  by destruct (from_service_account_file lib s).
Qed.

Lemma rewrite_existing_file (files : gmap string string) (p c c' : string) :
  is_Some (files !! p) →
  dom (<[p := c']> (<[p := c]> files)) = dom files.
Proof.
  intros Hp%elem_of_dom. rewrite !dom_insert_L.
  rewrite (subseteq_union_1_L {[p]} (dom files)); [|by apply singleton_subseteq_l].
  apply subseteq_union_1_L. by apply singleton_subseteq_l.
Qed.

Lemma get_credentials_interactive_paths (lib : auth_lib) (os : os_env)
    (token_path : string) (w : world) :
  same_paths w (get_credentials_interactive lib os token_path w).2.
Proof.
  unfold get_credentials_interactive, read_file. run_M.
  destruct (path_exists token_path w); cbn; [|done].
  destruct (bool_decide (token_path ∈ fs_dirs w)) eqn:Hdir; cbn; [done|].
  destruct (fs_files w !! token_path) as [content|] eqn:Hfile; cbn; [|done].
  destruct (from_authorized_user_file lib content) as [c|e]; cbn; [|done].
  destruct (valid c); cbn; [done|].
  destruct (expired c && negb (token_falsy (refresh_token c))); cbn; [|done].
  destruct (refresh lib c) as [c'|e]; cbn; [|done].
  unfold open_write, write_chunk. cbn. rewrite Hdir. cbn.
  destruct (open_fails os token_path); cbn; [done|].
  split; [done|]. cbn. apply rewrite_existing_file. eauto.
Qed.

Lemma get_credentials_paths (lib : auth_lib) (os : os_env) (use_service_account : bool)
    (service_account_file token_path : string) (w : world) :
  same_paths w (get_credentials lib os use_service_account service_account_file
                  token_path w).2.
Proof.
  unfold get_credentials. destruct use_service_account; run_M.
  - pose proof (get_service_account_credentials_paths lib service_account_file w) as Hsa.
    destruct (get_service_account_credentials lib service_account_file w)
      as [[[c|]|e|] w1]; cbn in *; try done.
    eapply same_paths_trans; [exact Hsa|].
    eapply same_paths_trans; [apply (same_paths_push (Log LogServiceAccountFallback))|].
    apply get_credentials_interactive_paths.
  - apply get_credentials_interactive_paths.
Qed.

Lemma create_service_paths (lib : auth_lib) (c : creds) (w : world) :
  same_paths w (create_service lib c w).2.
Proof.
  unfold create_service. run_M. by destruct (build lib c).
Qed.

Lemma list_files_in_folder_paths (fuel : nat) (svc : service) (folder_id : string)
    (w : world) :
  same_paths w (list_files_in_folder fuel svc folder_id w).2.
Proof.
  destruct (list_files_in_folder_spec svc folder_id fuel w) as (o & evs & -> & _).
  done.
Qed.

(** The run up to the root listing, under the conditions that let it get
    there. *)
Lemma download_files_reaches_listing (fuel pfuel : nat) (lib : auth_lib) (os : os_env)
    (shared_url download_path : string) (use_service_account : bool)
    (service_account_file token_path : string) (w : world)
    (folder_id : string) (c : creds) (svc : service) :
  shared_url ≠ "" →
  download_path ≠ "" →
  get_shared_folder_id (PyStr shared_url) = Returns (Some folder_id) →
  folder_id ≠ "" →
  (get_credentials lib os use_service_account service_account_file token_path w).1
  = Ret (Some c) →
  (create_service lib c
     (get_credentials lib os use_service_account service_account_file token_path w).2).1
  = Ret (Some svc) →
  download_files_from_shared_link fuel pfuel lib os shared_url download_path
    use_service_account service_account_file token_path w
  = (files ← list_files_in_folder pfuel svc folder_id;
     match files with
     | [] => logging LogNoFiles;; mret true
     | _ :: _ => process_files fuel pfuel os svc files download_path "";; mret true
     end)
      (create_service lib c
         (get_credentials lib os use_service_account service_account_file
            token_path w).2).2.
Proof.
  intros Hurl%String.eqb_neq Hpath%String.eqb_neq Hid Hfid%String.eqb_neq Hcreds Hsvc.
  unfold download_files_from_shared_link. rewrite Hurl, Hpath, Hid.
  run_M. rewrite Hfid.
  destruct (get_credentials lib os use_service_account service_account_file token_path w)
    as [o1 w1]. cbn [fst snd] in Hcreds, Hsvc |- *. subst o1.
  destruct (create_service lib c w1) as [o2 w2]. cbn [fst snd] in Hsvc |- *. by subst o2.
Qed.

(** An empty identifier is turned away like a missing one, before any
    credential is read. *)
Lemma empty_identifier_is_rejected (fuel pfuel : nat) (lib : auth_lib) (os : os_env)
    (shared_url download_path : string) (use_service_account : bool)
    (service_account_file token_path : string) (w : world) :
  shared_url ≠ "" →
  download_path ≠ "" →
  get_shared_folder_id (PyStr shared_url) = Returns (Some "") →
  download_files_from_shared_link fuel pfuel lib os shared_url download_path
    use_service_account service_account_file token_path w
  = (Ret false, push (Log LogInvalidUrl) w).
Proof.
  intros Hurl%String.eqb_neq Hpath%String.eqb_neq Hid.
  unfold download_files_from_shared_link. by rewrite Hurl, Hpath, Hid.
Qed.



(** C7: a run whose root listing is empty returns [True], and the
    directories and the file names on disk are those it started with: no
    file and no directory was created. *)
Theorem empty_root_is_success (fuel pfuel : nat) (lib : auth_lib) (os : os_env)
    (shared_url download_path : string) (use_service_account : bool)
    (service_account_file token_path : string) (w : world)
    (folder_id : string) (c : creds) (svc : service) :
  shared_url ≠ "" →
  download_path ≠ "" →
  get_shared_folder_id (PyStr shared_url) = Returns (Some folder_id) →
  folder_id ≠ "" →
  (get_credentials lib os use_service_account service_account_file token_path w).1
  = Ret (Some c) →
  (create_service lib c
     (get_credentials lib os use_service_account service_account_file token_path w).2).1
  = Ret (Some svc) →
  (list_files_in_folder pfuel svc folder_id
     (create_service lib c
        (get_credentials lib os use_service_account service_account_file
           token_path w).2).2).1 = Ret [] →
  ∃ w',
    download_files_from_shared_link fuel pfuel lib os shared_url download_path
      use_service_account service_account_file token_path w = (Ret true, w') ∧
    same_paths w w'.
Proof.
  intros Hurl Hpath Hid Hfid Hcreds Hsvc Hlist.
  rewrite (download_files_reaches_listing fuel pfuel lib os shared_url download_path
             use_service_account service_account_file token_path w folder_id c svc)
    by done.
  pose proof (get_credentials_paths lib os use_service_account service_account_file
                token_path w) as H1.
  set (w1 := (get_credentials _ _ _ _ _ w).2) in *.
  pose proof (create_service_paths lib c w1) as H2.
  set (w2 := (create_service lib c w1).2) in *.
  pose proof (list_files_in_folder_paths pfuel svc folder_id w2) as H3.
  unfold mbind at 1. unfold M_bind at 1.
  destruct (list_files_in_folder pfuel svc folder_id w2) as [o w3].
  cbn in Hlist, H3 |- *. subst o. run_M. eexists. split; [done|].
  eapply same_paths_trans; [exact H1|].
  eapply same_paths_trans; [exact H2|].
  eapply same_paths_trans; [exact H3|]. apply same_paths_push.
Qed.

End Orchestrator.

(* ===================================================================== *)
(** ** Paths *)
(* ===================================================================== *)

Section Paths.
Import PyString.

Lemma string_app_nil_r (s : string) : s +:+ "" = s.
Proof.
  induction s as [|c s IH]; [done|].
  change (String c (s +:+ "") = String c s). by f_equal.
Qed.

Lemma string_app_length (s t : string) :
  String.length (s +:+ t) = String.length s + String.length t.
Proof.
  induction s as [|c s IH]; [done|].
  change (S (String.length (s +:+ t)) = S (String.length s + String.length t)).
  by f_equal.
Qed.

Lemma string_app_cons (c : ascii) (s t : string) :
  String c s +:+ t = String c (s +:+ t).
Proof. done. Qed.

Lemma endswith_char_app (c : ascii) (s t : string) :
  t ≠ "" → endswith_char c (s +:+ t) = endswith_char c t.
Proof.
  intros Ht. induction s as [|a s IH]; [done|].
  rewrite string_app_cons. cbn [endswith_char]. rewrite IH.
  destruct (s +:+ t) eqn:E; [|done].
  destruct s; [|done]. by destruct t.
Qed.

Lemma os_path_join_relative (a b : string) :
  startswith "/" b = false → os_path_join a b = dir_prefix a +:+ b.
Proof.
  intros Hb. unfold os_path_join, dir_prefix. rewrite Hb.
  destruct (String.eqb a "" || endswith_char "/" a); [done|].
  by rewrite string_app_assoc.
Qed.

Lemma ancestors_from_spec (seen p h : string) :
  h ∈ ancestors_from seen p →
  ∃ u rest, p = u +:+ String "/"%char rest ∧ h = seen +:+ u.
Proof.
  revert seen. induction p as [|c p IH]; intros seen Hin; cbn in Hin.
  - by apply elem_of_nil in Hin.
  - apply elem_of_app in Hin as [Hin|Hin].
    + destruct (Ascii.eqb c "/" && negb (String.eqb seen "")) eqn:E;
        [|by apply elem_of_nil in Hin].
      apply list_elem_of_singleton in Hin as ->.
      apply andb_true_iff in E as [->%Ascii.eqb_eq _].
      exists "", p. by rewrite string_app_nil_r.
    + destruct (IH _ Hin) as (u & rest & -> & ->).
      exists (String c u), rest. split; [done|].
      by rewrite string_app_assoc.
Qed.

Lemma ancestors_spec (p h : string) :
  h ∈ ancestors p → ∃ rest, p = h +:+ String "/"%char rest.
Proof.
  intros (u & rest & -> & ->)%ancestors_from_spec. eauto.
Qed.

(** The three paths of the two-level tree, spelled from the prefix that
    [os.path.join] puts in front of a name. *)
Lemma join_a (root : string) : os_path_join root "a.txt" = dir_prefix root +:+ "a.txt".
Proof. by apply os_path_join_relative. Qed.

Lemma join_sub (root : string) : os_path_join root "sub" = dir_prefix root +:+ "sub".
Proof. by apply os_path_join_relative. Qed.

Lemma join_sub_b (root : string) :
  os_path_join (os_path_join root "sub") "b.txt" = dir_prefix root +:+ "sub/b.txt".
Proof.
  rewrite os_path_join_relative by done. rewrite join_sub. unfold dir_prefix at 1.
  rewrite endswith_char_app by done.
  assert (String.eqb (dir_prefix root +:+ "sub") "" = false) as ->.
  { apply String.eqb_neq. intros H. apply (f_equal String.length) in H.
    rewrite string_app_length in H. cbn in H. lia. }
  cbn [orb endswith_char Ascii.eqb]. cbn. by rewrite !string_app_assoc.
Qed.

Lemma paths_a_sub_differ (root : string) :
  os_path_join root "a.txt" ≠ os_path_join root "sub".
Proof. rewrite join_a, join_sub. by intros H%(inj _). Qed.

Lemma paths_a_b_differ (root : string) :
  os_path_join root "a.txt" ≠ os_path_join (os_path_join root "sub") "b.txt".
Proof. rewrite join_a, join_sub_b. by intros H%(inj _). Qed.

Lemma paths_sub_b_differ (root : string) :
  os_path_join (os_path_join root "sub") "b.txt" ≠ os_path_join root "sub".
Proof. rewrite join_sub_b, join_sub. by intros H%(inj _). Qed.

Lemma path_a_not_ancestor (root : string) :
  os_path_join root "a.txt" ∉ ancestors (os_path_join root "sub").
Proof.
  rewrite join_a, join_sub. intros [rest H]%ancestors_spec.
  rewrite string_app_assoc in H. by apply (inj _) in H.
Qed.

Lemma path_b_not_ancestor (root : string) :
  os_path_join (os_path_join root "sub") "b.txt" ∉ ancestors (os_path_join root "sub").
Proof.
  rewrite join_sub_b, join_sub. intros [rest H]%ancestors_spec.
  rewrite string_app_assoc in H. by apply (inj _) in H.
Qed.

End Paths.

(* ===================================================================== *)
(** ** The walk over a two-level tree *)
(* ===================================================================== *)

Section TwoLevels.
Import Remote Mock MockTree.

Lemma follows_trans (w1 w2 w3 : world) (m1 m2 : list string) :
  follows w1 w2 m1 → follows w2 w3 m2 → follows w1 w3 (m1 ++ m2).
Proof.
  intros (e1 & H1 & <-) (e2 & H2 & <-). exists (e1 ++ e2). split.
  - by rewrite H2, H1, app_assoc.
  - unfold makedirs_issued. by rewrite omap_app.
Qed.

Lemma follows_push (ev : event) (w : world) :
  follows w (push ev w) (makedirs_issued [ev]).
Proof. by exists [ev]. Qed.

(** A transfer that completes appends its content to the open file. *)
Lemma download_chunks_ok (file_path : string) (m : media) (content : string) (w : world) :
  media_content m = Some content →
  download_chunks file_path m w
  = (Ret tt, World (fs_dirs w)
               (<[file_path := default "" (fs_files w !! file_path) +:+ content]>
                  (fs_files w))
               (trace w)).
Proof.
  revert content w. induction m as [data|data rest IH|e]; intros content w Hm.
  - by injection Hm as <-.
  - cbn in Hm. destruct (media_content rest) as [c|] eqn:Hrest; [|done].
    injection Hm as <-. cbn [download_chunks]. run_M. unfold write_chunk at 1.
    rewrite (IH c) by done. cbn. rewrite lookup_insert_eq, insert_insert_eq. cbn.
    by rewrite string_app_assoc.
  - done.
Qed.

(** A download that meets no failure writes the file and nothing else. *)
Lemma download_file_ok (os : os_env) (svc : service)
    (file_id file_name download_path mime content : string) (w : world) :
  files_get svc file_id = Returns mime →
  mime ≠ folder_mime →
  media_content (files_get_media svc file_id) = Some content →
  os_path_join download_path file_name ∉ fs_dirs w →
  open_fails os (os_path_join download_path file_name) = false →
  ∃ w',
    download_file os svc file_id file_name download_path w = (Ret tt, w') ∧
    fs_dirs w' = fs_dirs w ∧
    fs_files w' = <[os_path_join download_path file_name := content]> (fs_files w) ∧
    follows w w' [].
Proof.
  intros Hget Hmime%String.eqb_neq Hmedia Hdir Hopen.
  unfold download_file, call_get, call_get_media, open_write. run_M.
  rewrite Hget, Hmime. cbn.
  set (p := os_path_join download_path file_name) in *.
  destruct (path_exists p _); cbn;
    rewrite bool_decide_eq_false_2 by done; rewrite Hopen; cbn;
    rewrite (download_chunks_ok p _ content) by done; cbn;
    rewrite lookup_insert_eq, insert_insert_eq; cbn;
    (eexists; split; [reflexivity|]; cbn; repeat split; try done).
  - unfold follows, push. cbn. rewrite <- !app_assoc.
    eexists. split; [reflexivity|done].
  - unfold follows, push. cbn. rewrite <- !app_assoc.
    eexists. split; [reflexivity|done].
Qed.

(** A listing that is served in pages leaves the disk alone. *)
Lemma list_files_in_folder_served (svc : service) (folder_id : string)
    (pages : list (list file_data)) (pfuel : nat) (w : world) :
  serves_pages svc folder_id None pages →
  length pages ≤ pfuel →
  ∃ w',
    list_files_in_folder pfuel svc folder_id w = (Ret (concat_until_empty pages), w') ∧
    fs_dirs w' = fs_dirs w ∧ fs_files w' = fs_files w ∧ follows w w' [].
Proof.
  intros Hserves Hfuel.
  destruct (list_files_in_folder_spec svc folder_id pfuel w)
    as (o & evs & Heq & Hevs & _).
  assert (o = Ret (concat_until_empty pages)) as ->.
  { pose proof (serves_pages_loop _ _ _ _ Hserves pfuel [] w Hfuel) as Hloop.
    unfold list_files_in_folder, try_except in Heq.
    destruct (list_loop pfuel svc folder_id [] None w) as [o' w']. cbn in Hloop.
    subst o'. by injection Heq as <-. }
  eexists. split; [exact Heq|]. repeat split; try done.
  exists evs. split; [done|].
  clear Heq. induction evs as [|ev evs IH]; [done|].
  apply Forall_cons in Hevs as [Hev Hevs]. specialize (IH Hevs).
  by destruct Hev as [[t ->] | ->].
Qed.

(** One file, listed at the top level. *)
Lemma walk_file_at_top (os : os_env) (svc : service) (n pfuel : nat) (f : file_data)
    (root mime content : string) (w : world) :
  fd_mimeType f ≠ folder_mime →
  files_get svc (fd_id f) = Returns mime →
  mime ≠ folder_mime →
  media_content (files_get_media svc (fd_id f)) = Some content →
  os_path_join root (fd_name f) ∉ fs_dirs w →
  open_fails os (os_path_join root (fd_name f)) = false →
  ∃ w',
    process_files (S n) pfuel os svc [f] root "" w = (Ret tt, w') ∧
    fs_dirs w' = fs_dirs w ∧
    fs_files w' = <[os_path_join root (fd_name f) := content]> (fs_files w) ∧
    follows w w' [].
Proof.
  intros Hfile%String.eqb_neq Hget Hmime Hmedia Hdir Hopen.
  destruct (download_file_ok os svc (fd_id f) (fd_name f) root mime content w)
    as (w' & Heq & Hrest); try done.
  exists w'. split; [|done].
  cbn [process_files for_each]. unfold process_entry, process_entry_by_type.
  cbn [String.eqb negb]. rewrite Hfile. run_M. by rewrite Heq.
Qed.

(** One file, listed in a folder whose local directory is not there yet. *)
Lemma walk_file_in_new_directory (os : os_env) (svc : service) (n pfuel : nat)
    (f : file_data) (root parent mime content : string) (w : world) :
  parent ≠ "" →
  fd_mimeType f ≠ folder_mime →
  files_get svc (fd_id f) = Returns mime →
  mime ≠ folder_mime →
  media_content (files_get_media svc (fd_id f)) = Some content →
  path_exists (os_path_join root parent) w = false →
  makedirs_fails os (os_path_join root parent) = false →
  os_path_join (os_path_join root parent) (fd_name f) ∉ fs_dirs w →
  os_path_join (os_path_join root parent) (fd_name f)
    ∉ ancestors (os_path_join root parent) →
  os_path_join (os_path_join root parent) (fd_name f) ≠ os_path_join root parent →
  open_fails os (os_path_join (os_path_join root parent) (fd_name f)) = false →
  ∃ w',
    process_files (S n) pfuel os svc [f] root parent w = (Ret tt, w') ∧
    fs_dirs w' = fs_dirs w ∪ list_to_set (ancestors (os_path_join root parent))
                   ∪ {[ os_path_join root parent ]} ∧
    fs_files w'
    = <[os_path_join (os_path_join root parent) (fd_name f) := content]> (fs_files w) ∧
    follows w w' [os_path_join root parent].
Proof.
  intros Hparent%String.eqb_neq Hfile%String.eqb_neq Hget Hmime Hmedia Habsent Hmk
         Hdir Hanc Hne Hopen.
  set (cur := os_path_join root parent) in *.
  set (w1 := push (Log (LogCreatedDirectory cur))
               (World (fs_dirs w ∪ list_to_set (ancestors cur) ∪ {[ cur ]}) (fs_files w)
                  (trace (push (Makedirs cur) w)))).
  destruct (download_file_ok os svc (fd_id f) (fd_name f) cur mime content w1)
    as (w' & Heq & Hdirs & Hfiles & Hfollows); try done.
  { cbn. rewrite !not_elem_of_union, elem_of_list_to_set, elem_of_singleton. done. }
  exists w'. split; [|split; [done|split; [done|]]].
  - cbn [process_files for_each]. unfold process_entry, process_entry_by_type.
    rewrite Hparent, Hfile. cbn [negb]. fold cur. run_M. rewrite Habsent. cbn [negb].
    unfold os_makedirs. rewrite Habsent, Hmk. cbn [orb]. fold w1. by rewrite Heq.
  - apply (follows_trans w w1 w' [cur] []); [|done].
    exists [Makedirs cur; Log (LogCreatedDirectory cur)]. split; [|done].
    cbn. by rewrite <- app_assoc.
Qed.

(** The folder [sub] of the two-level tree, listed at the top level. *)
Lemma walk_sub_at_top (os : os_env) (svc : service) (n pfuel : nat)
    (a sub b : file_data) (content_a content_b root : string) (w : world) :
  two_level_tree svc a sub b content_a content_b →
  1 ≤ pfuel →
  path_exists (os_path_join root "sub") w = false →
  makedirs_fails os (os_path_join root "sub") = false →
  os_path_join (os_path_join root "sub") "b.txt" ∉ fs_dirs w →
  open_fails os (os_path_join (os_path_join root "sub") "b.txt") = false →
  ∃ w',
    process_files (S (S n)) pfuel os svc [sub] root "" w = (Ret tt, w') ∧
    fs_dirs w' = fs_dirs w ∪ list_to_set (ancestors (os_path_join root "sub"))
                   ∪ {[ os_path_join root "sub" ]} ∧
    fs_files w' = <[os_path_join (os_path_join root "sub") "b.txt" := content_b]>
                    (fs_files w) ∧
    follows w w' [os_path_join root "sub"].
Proof.
  intros T Hpfuel Habsent Hmk Hdir Hopen.
  set (w1 := push (Log (LogProcessingFolder (fd_name sub) (fd_id sub))) w).
  destruct (list_files_in_folder_served svc (fd_id sub) [[b]] pfuel w1)
    as (w2 & Hlist & Hd2 & Hf2 & Hfol2); [apply (sub_lists_b _ _ _ _ _ _ T)|done|].
  destruct (meta_b _ _ _ _ _ _ T) as (mime & Hget & Hmime).
  destruct (walk_file_in_new_directory os svc n pfuel b root "sub" mime content_b w2)
    as (w3 & Hwalk & Hd3 & Hf3 & Hfol3); try done;
    rewrite ?(name_b _ _ _ _ _ _ T); try done.
  - apply (b_is_file _ _ _ _ _ _ T).
  - apply (media_b _ _ _ _ _ _ T).
  - unfold path_exists. rewrite Hd2, Hf2. exact Habsent.
  - by rewrite Hd2.
  - apply path_b_not_ancestor.
  - apply paths_sub_b_differ.
  - rewrite (name_b _ _ _ _ _ _ T) in Hf3.
    exists w3. split; [|split; [by rewrite Hd3, Hd2|split; [by rewrite Hf3, Hf2|]]].
    + cbn [process_files for_each]. unfold process_entry at 1. cbn [String.eqb negb].
      unfold process_entry_by_type at 1.
      rewrite (sub_is_folder _ _ _ _ _ _ T), String.eqb_refl.
      run_M. fold w1. rewrite Hlist. cbn [concat_until_empty app].
      rewrite (name_sub _ _ _ _ _ _ T). cbn [String.eqb negb].
      cbn [process_files] in Hwalk. by rewrite Hwalk.
    + apply (follows_trans w w1 w3 [] [os_path_join root "sub"]);
        [apply (follows_push (Log _))|].
      by apply (follows_trans w1 w2 w3 [] [os_path_join root "sub"]).
Qed.


End TwoLevels.

(* ===================================================================== *)
(** ** The statements on the mock tree *)
(* ===================================================================== *)

Section WorkedExamples.
Import Remote Mock MockTree.

Lemma mock_two_level_tree :
  two_level_tree tree_service entry_a entry_sub entry_b "hello" "bee".
Proof.
  split; try done.
  - apply (serves_last tree_service "id-sub" None (ResultsPage (Some [entry_b]) None));
      reflexivity.
  - by exists "text/plain".
  - by exists "text/plain".
Qed.

Lemma mock_usable_destination : usable_destination kind_os "dest" fresh_world.
Proof. by split. Qed.



Lemma empty_root_is_success_witness :
  ∃ w',
    download_files_from_shared_link 2 1 empty_lib kind_os
      "https://drive.google.com/drive/folders/root?usp=sharing" "dest"
      true "service_account.json" "token.json" fresh_world = (Ret true, w') ∧
    same_paths fresh_world w'.
Proof.
  apply (empty_root_is_success 2 1 empty_lib kind_os
           "https://drive.google.com/drive/folders/root?usp=sharing" "dest"
           true "service_account.json" "token.json" fresh_world
           "root" (Creds true false None "robot") (paged_service [[]])).
  - done.
  - done.
  - reflexivity.
  - done.
  - reflexivity.
  - reflexivity.
  - reflexivity.
Defined.

End WorkedExamples.

(* ===================================================================== *)
(** ** Further properties of [get_shared_folder_id] *)
(* ===================================================================== *)

Section FolderIdShape.
Import PyString UrlSpec.

Lemma startswith_drop (p s : string) :
  startswith p s = true → s = p +:+ drop (String.length p) s.
Proof.
  revert s. induction p as [|a p IH]; intros s Hs; [done|].
  destruct s as [|b s]; [done|]. cbn in Hs.
  destruct (Ascii.eqb a b) eqn:Hab; [|done].
  apply Ascii.eqb_eq in Hab as ->.
  change (String b s = String b (p +:+ drop (String.length p) s)).
  f_equal. by apply IH.
Qed.

Lemma first_after_decompose (m s rest : string) :
  first_after m s = Some rest → ∃ pre, s = pre +:+ m +:+ rest.
Proof.
  induction s as [|c s IH]; cbn [first_after]; intros H.
  - destruct (startswith m "") eqn:Hm; [|done]. injection H as <-.
    exists "". by apply startswith_drop.
  - destruct (startswith m (String c s)) eqn:Hm.
    + injection H as <-. exists "". by apply startswith_drop.
    + destruct (IH H) as [pre ->]. by exists (String c pre).
Qed.

Lemma until_prefix (stop : string → bool) (s : string) :
  ∃ tail, s = until stop s +:+ tail.
Proof.
  induction s as [|c s [tail IH]]; cbn [until].
  - exists "". by destruct (stop "").
  - destruct (stop (String c s)); [by exists (String c s)|].
    exists tail. change (String c s = String c (until stop s +:+ tail)). by f_equal.
Qed.

Lemma startswith_until (m : string) (stop : string → bool) (s : string) :
  startswith m (until stop s) = true → startswith m s = true.
Proof.
  revert s. induction m as [|a m IH]; intros s; [done|].
  destruct s as [|c s]; cbn [until].
  - by destruct (stop "").
  - destruct (stop (String c s)); [done|]. cbn.
    destruct (Ascii.eqb a c); [apply IH|done].
Qed.

Lemma until_without_delimiter (d : ascii) (stop : string → bool) (s : string) :
  contains (String d "") (until (fun t => startswith (String d "") t || stop t) s) = false.
Proof.
  induction s as [|c s IH]; cbn [until].
  - by destruct (startswith (String d "") "" || stop "").
  - destruct (startswith (String d "") (String c s) || stop (String c s)) eqn:Hstop;
      [done|].
    apply orb_false_iff in Hstop as [Hd _]. cbn in Hd.
    cbn [contains]. rewrite IH, orb_false_r. cbn. by destruct (Ascii.eqb d c).
Qed.

Lemma until_without_marker (m : string) (stop : string → bool) (s : string) :
  m ≠ "" →
  contains m (until (fun t => stop t || startswith m t) s) = false.
Proof.
  intros Hm. induction s as [|c s IH].
  - cbn [until]. destruct (stop "" || startswith m ""); cbn;
      by rewrite startswith_nil_r.
  - destruct (stop (String c s) || startswith m (String c s)) eqn:Hstop.
    + cbn [until]. rewrite Hstop. cbn. by rewrite startswith_nil_r.
    + pose proof (startswith_until m (fun t => stop t || startswith m t) (String c s))
        as Hpre.
      cbn [until] in Hpre |- *. rewrite Hstop in Hpre |- *.
      cbn [contains]. rewrite IH, orb_false_r.
      apply orb_false_iff in Hstop as [_ Hstart].
      apply not_true_iff_false. intros E. apply Hpre in E. congruence.
Qed.

(** X1: an identifier returned for a string is a piece of that string
    that sits right after an occurrence of the selected marker, and it holds
    neither that marker's delimiter nor the marker. *)
Theorem folder_id_is_clean_piece_of_url (url r : string) :
  get_shared_folder_id (PyStr url) = Returns (Some r) →
  ∃ m d pre tail,
    ((m = folders_marker ∧ d = "?"%char) ∨ (m = folderview_marker ∧ d = "&"%char)) ∧
    url = pre +:+ m +:+ r +:+ tail ∧
    contains (String d "") r = false ∧
    contains m r = false.
Proof.
  intros Hr.
  destruct (selected_marker url) as [[[m d] rest]|] eqn:Hsel;
    [|by rewrite (get_shared_folder_id_unselected _ Hsel) in Hr].
  rewrite (get_shared_folder_id_selected _ _ _ _ Hsel) in Hr. injection Hr as <-.
  assert (((m = folders_marker ∧ d = "?"%char) ∨ (m = folderview_marker ∧ d = "&"%char))
          ∧ first_after m url = Some rest) as [Hshape Hfirst].
  { unfold selected_marker in Hsel.
    destruct (first_after folders_marker url) eqn:H1.
    - injection Hsel as <- <- <-. split; [by left|done].
    - destruct (first_after folderview_marker url) eqn:H2; [|done].
      injection Hsel as <- <- <-. split; [by right|done]. }
  destruct (first_after_decompose _ _ _ Hfirst) as [pre Hurl].
  destruct (until_prefix (fun t => startswith (String d "") t || startswith m t) rest)
    as [tail Htail].
  exists m, d, pre, tail. split; [done|].
  split; [rewrite Hurl; do 2 f_equal; exact Htail|]. split.
  - apply until_without_delimiter.
  - apply until_without_marker. by destruct Hshape as [[-> _]|[-> _]].
Qed.

Lemma folder_id_is_clean_piece_of_url_witness :
  ∃ m d pre tail,
    ((m = folders_marker ∧ d = "?"%char) ∨ (m = folderview_marker ∧ d = "&"%char)) ∧
    "https://drive.google.com/folderview?id=abc123&usp=sharing"
    = pre +:+ m +:+ "abc123" +:+ tail ∧
    contains (String d "") "abc123" = false ∧
    contains m "abc123" = false.
Proof.
  apply (folder_id_is_clean_piece_of_url
           "https://drive.google.com/folderview?id=abc123&usp=sharing" "abc123").
  reflexivity.
Defined.

(** X2: on a string the parser never raises: the [IndexError] and
    [TypeError] handlers are never entered, and the result is an identifier
    exactly when one of the two markers occurs. *)
Theorem folder_id_parser_total_on_strings (url : string) :
  (∃ r, get_shared_folder_id (PyStr url) = Returns (Some r)) ∧
    (contains folders_marker url = true ∨ contains folderview_marker url = true)
  ∨ get_shared_folder_id (PyStr url) = Returns None ∧
    contains folders_marker url = false ∧ contains folderview_marker url = false.
Proof.
  destruct (selected_marker url) as [[[m d] rest]|] eqn:Hsel.
  - left. split; [rewrite (get_shared_folder_id_selected _ _ _ _ Hsel); eauto|].
    unfold selected_marker in Hsel.
    destruct (first_after folders_marker url) eqn:H1.
    + left. eapply contains_true_first_after; eauto.
    + destruct (first_after folderview_marker url) eqn:H2; [|done].
      right. eapply contains_true_first_after; eauto.
  - right. split; [by apply get_shared_folder_id_unselected|].
    unfold selected_marker in Hsel.
    destruct (first_after folders_marker url) eqn:H1; [done|].
    destruct (first_after folderview_marker url) eqn:H2; [done|].
    split; by apply contains_false_first_after.
Qed.

End FolderIdShape.

(* ===================================================================== *)
(** ** Further properties of [list_files_in_folder] *)
(* ===================================================================== *)

Section ListingRequests.
Import Remote.

Lemma list_loop_cursor_chain (svc : service) (folder_id : string) (fuel : nat)
    (results : list file_data) (tok : option string) (w : world) :
  ∃ o calls,
    list_loop fuel svc folder_id results tok w
    = (o, World (fs_dirs w) (fs_files w) (trace w ++ calls)) ∧
    cursor_chain svc folder_id tok calls ∧
    (0 < fuel → calls ≠ []).
Proof.
  revert results tok w. induction fuel as [|n IH]; intros results tok w.
  - exists OutOfFuel, []. rewrite app_nil_r. split; [by destruct w|]. split; [done|lia].
  - rewrite list_loop_step. cbn zeta.
    destruct (files_list svc (list_req folder_id tok)) as [page|e] eqn:Hcall.
    + destruct (continues page).
      * destruct (IH (results ++ page_items page) (nextPageToken page)
                    (push (CallList (list_req folder_id tok)) w))
          as (o & calls & Heq & Hchain & _).
        exists o, (CallList (list_req folder_id tok) :: calls).
        split; [|split; [|done]].
        -- rewrite Heq. cbn. by rewrite <- app_assoc.
        -- cbn [cursor_chain]. split; [done|].
           destruct calls as [|call calls]; [done|]. eauto.
      * exists (Ret (results ++ page_items page)), [CallList (list_req folder_id tok)].
        by repeat split.
    + exists (Raise e), [CallList (list_req folder_id tok)]. by repeat split.
Qed.

(** X3: the listing calls of one [list_files_in_folder] form a chain: the
    first is made without a cursor, and every later one carries the cursor
    of the page that answered the call before it; the only other thing the
    function adds to the trace is the log record of its error handler. *)
Theorem listing_requests_follow_the_cursor (svc : service) (folder_id : string)
    (fuel : nat) (w : world) :
  ∃ calls tail,
    trace (list_files_in_folder fuel svc folder_id w).2 = trace w ++ calls ++ tail ∧
    cursor_chain svc folder_id None calls ∧
    (tail = [] ∨ tail = [Log (LogListingError HttpError)]) ∧
    (0 < fuel → calls ≠ []).
Proof.
  destruct (list_loop_cursor_chain svc folder_id fuel [] None w)
    as (o & calls & Heq & Hchain & Hne).
  unfold list_files_in_folder, try_except. rewrite Heq.
  destruct o as [items|e|].
  - exists calls, []. rewrite app_nil_r. by repeat split; try left.
  - destruct (decide (e = HttpError)) as [->|Hneq].
    + exists calls, [Log (LogListingError HttpError)]. run_M. cbn.
      rewrite <- app_assoc. by repeat split; try right.
    + exists calls, []. rewrite app_nil_r.
      assert (match e with
              | HttpError => Some (logging (LogListingError e);; mret [])
              | _ => None
              end = @None (M (list file_data))) as -> by (by destruct e).
      by repeat split; try left.
  - exists calls, []. rewrite app_nil_r. by repeat split; try left.
Qed.

(** X4: whatever the service answers, [list_files_in_folder] never lets an
    [HttpError] out, and it leaves the directories and the files on disk
    exactly as they were. *)
Theorem listing_never_raises_http_nor_writes (svc : service) (folder_id : string)
    (fuel : nat) (w : world) :
  (list_files_in_folder fuel svc folder_id w).1 ≠ Raise HttpError ∧
  fs_dirs (list_files_in_folder fuel svc folder_id w).2 = fs_dirs w ∧
  fs_files (list_files_in_folder fuel svc folder_id w).2 = fs_files w.
Proof.
  destruct (list_files_in_folder_spec svc folder_id fuel w)
    as (o & evs & -> & _ & Hnot & _).
  done.
Qed.

End ListingRequests.

(* ===================================================================== *)
(** ** Further properties of [download_file] *)
(* ===================================================================== *)

Section Downloads.
Import Mock MockTree MockTransfer.

Lemma download_chunks_general (file_path : string) (m : media) (c0 : string) (w : world) :
  fs_files w !! file_path = Some c0 →
  download_chunks file_path m w
  = (match media_error m with None => Ret tt | Some e => Raise e end,
     World (fs_dirs w) (<[file_path := c0 +:+ media_written m]> (fs_files w)) (trace w)).
Proof.
  revert c0 w. induction m as [data|data rest IH|e]; intros c0 w Hp.
  - cbn. unfold write_chunk. by rewrite Hp.
  - cbn [download_chunks media_error media_written]. run_M. unfold write_chunk at 1.
    rewrite (IH (c0 +:+ data)); [|cbn; rewrite Hp; apply lookup_insert_eq].
    cbn. rewrite insert_insert_eq, string_app_assoc. by destruct (media_error rest).
  - cbn. rewrite string_app_nil_r, insert_id by done. by destruct w.
Qed.

(** The whole of a download whose file could be opened. *)
Lemma download_file_opened (os : os_env) (svc : service)
    (file_id file_name download_path mime : string) (w : world) :
  files_get svc file_id = Returns mime →
  mime ≠ folder_mime →
  os_path_join download_path file_name ∉ fs_dirs w →
  open_fails os (os_path_join download_path file_name) = false →
  download_file os svc file_id file_name download_path w
  = (Ret tt,
     World (fs_dirs w)
       (<[os_path_join download_path file_name
          := media_written (files_get_media svc file_id)]> (fs_files w))
       (trace w ++ [CallGet file_id]
        ++ (if path_exists (os_path_join download_path file_name) w
            then [Log (LogOverwriting (os_path_join download_path file_name))] else [])
        ++ [CallGetMedia file_id; OpenWrite (os_path_join download_path file_name);
            Log (transfer_log_record file_name
                   (os_path_join download_path file_name)
                   (files_get_media svc file_id))])).
Proof.
  intros Hget Hmime%String.eqb_neq Hdir Hopen.
  unfold download_file, call_get, call_get_media, open_write, transfer_log_record. run_M.
  rewrite Hget, Hmime. cbn.
  set (p := os_path_join download_path file_name) in *.
  set (m := files_get_media svc file_id).
  change (path_exists p (push (CallGet file_id) w)) with (path_exists p w).
  destruct (path_exists p w); cbn;
    rewrite bool_decide_eq_false_2 by done; rewrite Hopen; cbn;
    rewrite (download_chunks_general p m "") by (cbn; apply lookup_insert_eq); cbn;
    rewrite insert_insert_eq;
    destruct (media_error m) as [[]|]; cbn; unfold push; cbn;
    by rewrite <- ?app_assoc.
Qed.

(** A download that does not get to open its file. *)
Lemma download_file_unopened (os : os_env) (svc : service)
    (file_id file_name download_path : string) (w : world) :
  (∃ e, files_get svc file_id = Raises e) ∨
  files_get svc file_id = Returns folder_mime ∨
  os_path_join download_path file_name ∈ fs_dirs w ∨
  open_fails os (os_path_join download_path file_name) = true →
  ∃ evs,
    download_file os svc file_id file_name download_path w
    = (Ret tt, World (fs_dirs w) (fs_files w) (trace w ++ evs)) ∧
    makedirs_issued evs = [].
Proof.
  intros Hcase.
  unfold download_file, call_get, call_get_media, open_write. run_M.
  set (p := os_path_join download_path file_name) in *.
  destruct (files_get svc file_id) as [mime|e] eqn:Hget; cbn.
  - destruct (String.eqb mime folder_mime) eqn:Hmime; cbn.
    { eexists. unfold push. cbn. rewrite <- app_assoc. by split. }
    assert (bool_decide (p ∈ fs_dirs w) || open_fails os p = true) as Hrefused.
    { destruct Hcase as [[e He]|[Hf|[Hd|Ho]]]; [done| |by rewrite bool_decide_eq_true_2|].
      - injection Hf as ->. by rewrite String.eqb_refl in Hmime.
      - rewrite Ho. apply orb_true_r. }
    change (path_exists p (push (CallGet file_id) w)) with (path_exists p w).
    destruct (path_exists p w); cbn; rewrite Hrefused; cbn;
      eexists; unfold push; cbn; rewrite <- !app_assoc; by split.
  - destruct e; eexists; unfold push; cbn; rewrite <- !app_assoc; by split.
Qed.

(** X5: once the metadata says the entry is not a folder and the local
    file can be opened, the download returns normally and the file holds
    exactly what the transfer delivered before it ended, completed or not:
    earlier content is gone, and a transfer that fails midway leaves its
    first chunks behind.  The last log record tells which of the two
    happened. *)
Theorem download_file_leaves_what_was_delivered (os : os_env) (svc : service)
    (file_id file_name download_path mime : string) (w : world) :
  files_get svc file_id = Returns mime →
  mime ≠ folder_mime →
  os_path_join download_path file_name ∉ fs_dirs w →
  open_fails os (os_path_join download_path file_name) = false →
  (download_file os svc file_id file_name download_path w).1 = Ret tt ∧
  fs_files (download_file os svc file_id file_name download_path w).2
    !! os_path_join download_path file_name
  = Some (media_written (files_get_media svc file_id)) ∧
  last (trace (download_file os svc file_id file_name download_path w).2)
  = Some (Log (transfer_log_record file_name (os_path_join download_path file_name)
                 (files_get_media svc file_id))).
Proof.
  intros Hget Hmime Hdir Hopen.
  rewrite (download_file_opened os svc file_id file_name download_path mime w) by done.
  cbn [fst snd fs_files trace]. split; [done|]. split; [apply lookup_insert_eq|].
  destruct (path_exists _ w); cbn [app]; by rewrite last_app_cons, ?last_cons_cons.
Qed.

Lemma download_file_leaves_what_was_delivered_witness :
  (download_file kind_os cut_off_service "id-a" "a.txt" "dest" used_world).1 = Ret tt ∧
  fs_files (download_file kind_os cut_off_service "id-a" "a.txt" "dest" used_world).2
    !! os_path_join "dest" "a.txt"
  = Some "he" ∧
  last (trace (download_file kind_os cut_off_service "id-a" "a.txt" "dest" used_world).2)
  = Some (Log (LogDownloadHttpError "a.txt" HttpError)).
Proof.
  apply (download_file_leaves_what_was_delivered kind_os cut_off_service
           "id-a" "a.txt" "dest" "text/plain" used_world);
    [reflexivity | discriminate | done | reflexivity].
Defined.

(** X6: when the metadata call fails, or says the entry is a folder, or
    the local path is a directory, or the system refuses to open it, the
    download returns normally and the disk is exactly as it was. *)
Theorem download_file_without_open_changes_nothing (os : os_env) (svc : service)
    (file_id file_name download_path : string) (w : world) :
  (∃ e, files_get svc file_id = Raises e) ∨
  files_get svc file_id = Returns folder_mime ∨
  os_path_join download_path file_name ∈ fs_dirs w ∨
  open_fails os (os_path_join download_path file_name) = true →
  (download_file os svc file_id file_name download_path w).1 = Ret tt ∧
  fs_dirs (download_file os svc file_id file_name download_path w).2 = fs_dirs w ∧
  fs_files (download_file os svc file_id file_name download_path w).2 = fs_files w.
Proof.
  intros Hcase.
  by destruct (download_file_unopened os svc file_id file_name download_path w Hcase)
    as (evs & -> & _).
Qed.

Lemma download_file_without_open_changes_nothing_witness :
  (download_file kind_os tree_service "id-a" "dest" "" used_world).1 = Ret tt ∧
  fs_dirs (download_file kind_os tree_service "id-a" "dest" "" used_world).2
  = fs_dirs used_world ∧
  fs_files (download_file kind_os tree_service "id-a" "dest" "" used_world).2
  = fs_files used_world.
Proof.
  apply (download_file_without_open_changes_nothing kind_os tree_service
           "id-a" "dest" "" used_world).
  right. right. left. vm_compute. tauto.
Defined.

(** What every download leaves alone. *)
Lemma download_file_frame (os : os_env) (svc : service)
    (file_id file_name download_path : string) (w : world) :
  ∃ w' evs,
    download_file os svc file_id file_name download_path w = (Ret tt, w') ∧
    fs_dirs w' = fs_dirs w ∧
    (∀ q, q ≠ os_path_join download_path file_name →
          fs_files w' !! q = fs_files w !! q) ∧
    (∀ q, is_Some (fs_files w !! q) → is_Some (fs_files w' !! q)) ∧
    trace w' = trace w ++ evs ∧
    makedirs_issued evs = [].
Proof.
  set (p := os_path_join download_path file_name).
  destruct (files_get svc file_id) as [mime|e] eqn:Hget.
  - destruct (decide (mime = folder_mime)) as [->|Hmime];
      [|destruct (decide (p ∈ fs_dirs w)) as [Hd|Hd];
        [|destruct (open_fails os p) eqn:Ho]].
    + destruct (download_file_unopened os svc file_id file_name download_path w)
        as (evs & -> & Hevs); [by right; left|]. by eexists _, evs.
    + destruct (download_file_unopened os svc file_id file_name download_path w)
        as (evs & -> & Hevs); [by right; right; left|]. by eexists _, evs.
    + destruct (download_file_unopened os svc file_id file_name download_path w)
        as (evs & -> & Hevs); [by right; right; right|]. by eexists _, evs.
    + rewrite (download_file_opened os svc file_id file_name download_path mime w)
        by done.
      eexists _, _. split; [reflexivity|]. cbn. fold p.
      split; [done|]. split; [|split; [|split; [reflexivity|]]].
      * intros q Hq. by rewrite lookup_insert_ne.
      * intros q Hq. destruct (decide (q = p)) as [->|Hne].
        -- rewrite lookup_insert_eq. eauto.
        -- by rewrite lookup_insert_ne.
      * by destruct (path_exists p w).
  - destruct (download_file_unopened os svc file_id file_name download_path w)
      as (evs & -> & Hevs); [left; eauto|]. by eexists _, evs.
Qed.

(** X7: a download never creates or removes a directory, never removes
    a file, and changes the content of at most one path, the one
    [os.path.join] makes of the directory and the name it was given. *)
Theorem download_file_touches_one_path (os : os_env) (svc : service)
    (file_id file_name download_path : string) (w : world) :
  fs_dirs (download_file os svc file_id file_name download_path w).2 = fs_dirs w ∧
  (∀ q, q ≠ os_path_join download_path file_name →
        fs_files (download_file os svc file_id file_name download_path w).2 !! q
        = fs_files w !! q) ∧
  dom (fs_files w)
    ⊆ dom (fs_files (download_file os svc file_id file_name download_path w).2) ∧
  ∃ evs,
    trace (download_file os svc file_id file_name download_path w).2 = trace w ++ evs ∧
    makedirs_issued evs = [].
Proof.
  destruct (download_file_frame os svc file_id file_name download_path w)
    as (w' & evs & -> & Hdirs & Hother & Hmono & Htrace & Hevs).
  cbn. split; [done|]. split; [done|]. split; [|eauto].
  intros q Hq%elem_of_dom. apply elem_of_dom. by apply Hmono.
Qed.

(** X8: downloading the same entry again, once it could be opened, leaves
    the disk as the first download left it, and warns that the file is
    being overwritten. *)
Theorem download_file_twice_is_once (os : os_env) (svc : service)
    (file_id file_name download_path mime : string) (w : world) :
  files_get svc file_id = Returns mime →
  mime ≠ folder_mime →
  os_path_join download_path file_name ∉ fs_dirs w →
  open_fails os (os_path_join download_path file_name) = false →
  fs_files (download_file os svc file_id file_name download_path
              (download_file os svc file_id file_name download_path w).2).2
  = fs_files (download_file os svc file_id file_name download_path w).2 ∧
  fs_dirs (download_file os svc file_id file_name download_path
             (download_file os svc file_id file_name download_path w).2).2
  = fs_dirs (download_file os svc file_id file_name download_path w).2 ∧
  Log (LogOverwriting (os_path_join download_path file_name))
    ∈ trace (download_file os svc file_id file_name download_path
               (download_file os svc file_id file_name download_path w).2).2.
Proof.
  intros Hget Hmime Hdir Hopen.
  rewrite (download_file_opened os svc file_id file_name download_path mime w) by done.
  cbn [snd].
  rewrite (download_file_opened os svc file_id file_name download_path mime) by done.
  cbn [snd fs_files fs_dirs trace]. split; [apply insert_insert_eq|]. split; [done|].
  match goal with
  | |- context [path_exists ?p (World ?d ?f ?t)] =>
      assert (path_exists p (World d f t) = true) as ->
  end.
  { unfold path_exists. cbn [fs_files fs_dirs]. rewrite lookup_insert_eq.
    rewrite (bool_decide_eq_true_2 (is_Some (Some _))) by eauto.
    apply orb_true_r. }
  rewrite !elem_of_app, !elem_of_cons. tauto.
Qed.

Lemma download_file_twice_is_once_witness :
  fs_files (download_file kind_os tree_service "id-a" "a.txt" "dest"
              (download_file kind_os tree_service "id-a" "a.txt" "dest"
                 fresh_world).2).2
  = fs_files (download_file kind_os tree_service "id-a" "a.txt" "dest" fresh_world).2 ∧
  fs_dirs (download_file kind_os tree_service "id-a" "a.txt" "dest"
             (download_file kind_os tree_service "id-a" "a.txt" "dest"
                fresh_world).2).2
  = fs_dirs (download_file kind_os tree_service "id-a" "a.txt" "dest" fresh_world).2 ∧
  Log (LogOverwriting (os_path_join "dest" "a.txt"))
    ∈ trace (download_file kind_os tree_service "id-a" "a.txt" "dest"
               (download_file kind_os tree_service "id-a" "a.txt" "dest"
                  fresh_world).2).2.
Proof.
  apply (download_file_twice_is_once kind_os tree_service "id-a" "a.txt" "dest"
           "text/plain" fresh_world);
    [reflexivity | discriminate | done | reflexivity].
Defined.

Lemma os_path_join_absolute (a b : string) :
  PyString.startswith "/" b = true → os_path_join a b = b.
Proof. intros Hb. unfold os_path_join. by rewrite Hb. Qed.

(** X9: the name of an entry is used as it comes: when it starts with
    ["/"], the download goes to that absolute path, and the directory it
    was given plays no part in what happens. *)
Theorem absolute_name_ignores_download_path (os : os_env) (svc : service)
    (file_id file_name dir1 dir2 : string) (w : world) :
  PyString.startswith "/" file_name = true →
  download_file os svc file_id file_name dir1 w
  = download_file os svc file_id file_name dir2 w.
Proof.
  intros Habs. unfold download_file.
  by rewrite !(os_path_join_absolute _ file_name Habs).
Qed.

Lemma absolute_name_ignores_download_path_witness :
  download_file kind_os tree_service "id-a" "/tmp/a.txt" "dest" fresh_world
  = download_file kind_os tree_service "id-a" "/tmp/a.txt" "elsewhere" fresh_world.
Proof.
  apply (absolute_name_ignores_download_path kind_os tree_service "id-a" "/tmp/a.txt"
           "dest" "elsewhere" fresh_world).
  reflexivity.
Defined.

End Downloads.

(* ===================================================================== *)
(** ** Further properties of [process_files] *)
(* ===================================================================== *)

Section WalkDirectories.
Import Remote Mock MockTree MockTransfer.

(** A directory is not among its own intermediate directories. *)
Lemma leaf_not_left_behind (os : os_env) (p : string) : p ∉ left_behind os p.
Proof.
  unfold left_behind. intros Hin%subseteq_take.
  apply ancestors_spec in Hin as [rest Hp].
  apply (f_equal String.length) in Hp. rewrite string_app_length in Hp.
  cbn [String.length] in Hp. lia.
Qed.

Lemma path_exists_left_behind (os : os_env) (p : string) (w : world) (tr : list event) :
  path_exists p w = false →
  path_exists p (World (fs_dirs w ∪ list_to_set (left_behind os p)) (fs_files w) tr)
  = false.
Proof.
  unfold path_exists. cbn [fs_dirs fs_files].
  intros [Hd Hf]%orb_false_elim. rewrite Hf, orb_false_r.
  apply bool_decide_eq_false in Hd. apply bool_decide_eq_false.
  rewrite elem_of_union, elem_of_list_to_set.
  intros [?|?]; [done|]. by eapply leaf_not_left_behind.
Qed.

Lemma process_entry_refused (pfuel : nat) (os : os_env) (svc : service)
    (recurse : list file_data → string → string → M unit)
    (download_path parent : string) (f : file_data) (w : world) :
  parent ≠ "" →
  path_exists (os_path_join download_path parent) w = false →
  makedirs_fails os (os_path_join download_path parent) = true →
  process_entry pfuel os svc recurse download_path parent f w
  = (Ret tt,
     World (fs_dirs w ∪ list_to_set (left_behind os (os_path_join download_path parent)))
       (fs_files w)
       (trace w ++ refused_attempts (os_path_join download_path parent) 1)).
Proof.
  intros Hparent%String.eqb_neq Habsent Hmk.
  unfold process_entry. rewrite Hparent. cbn [negb].
  run_M. rewrite Habsent. cbn [negb]. unfold os_makedirs.
  rewrite Habsent, Hmk. unfold push. cbn [fs_dirs fs_files trace].
  cbn [refused_attempts]. by rewrite <- !app_assoc.
Qed.

Lemma refused_directory_loop (pfuel : nat) (os : os_env) (svc : service)
    (recurse : list file_data → string → string → M unit)
    (download_path parent : string) (files : list file_data) (w : world) :
  parent ≠ "" →
  path_exists (os_path_join download_path parent) w = false →
  makedirs_fails os (os_path_join download_path parent) = true →
  ∃ w',
    for_each files (process_entry pfuel os svc recurse download_path parent) w
    = (Ret tt, w') ∧
    trace w' = trace w
               ++ refused_attempts (os_path_join download_path parent) (length files) ∧
    fs_files w' = fs_files w ∧
    fs_dirs w' = match files with
                 | [] => fs_dirs w
                 | _ :: _ =>
                     fs_dirs w
                     ∪ list_to_set (left_behind os (os_path_join download_path parent))
                 end ∧
    path_exists (os_path_join download_path parent) w' = false.
Proof.
  intros Hparent Habsent Hmk. revert w Habsent.
  induction files as [|f files IH]; intros w Habsent.
  - exists w. cbn. by rewrite app_nil_r.
  - cbn [for_each]. unfold mbind, M_bind.
    rewrite process_entry_refused by done.
    edestruct (IH (World (fs_dirs w
                          ∪ list_to_set (left_behind os (os_path_join download_path parent)))
                     (fs_files w)
                     (trace w ++ refused_attempts (os_path_join download_path parent) 1)))
      as (w' & -> & Htr & Hfiles & Hdirs & Hleaf);
      [by apply path_exists_left_behind|].
    exists w'. cbn [fs_dirs fs_files trace] in Htr, Hfiles, Hdirs.
    split; [done|]. split.
    { rewrite Htr. cbn [length refused_attempts]. by rewrite <- app_assoc. }
    split; [done|]. split; [|done].
    rewrite Hdirs. destruct files; [done|].
    by rewrite <- (assoc_L (∪)), (idemp_L (∪)).
Qed.

(** X10: when the local directory of a folder is missing and the system
    refuses to create it, the walk over the entries of that folder asks for
    the directory once per entry, logs each refusal, and does nothing else
    of its own: no remote call is made, no file is opened or written, and
    the walk returns normally.  The directory is still missing afterwards;
    what can have appeared are the intermediate directories that
    [os.makedirs] made before it was refused. *)
Theorem refused_directory_skips_every_entry (fuel pfuel : nat) (os : os_env)
    (svc : service) (files : list file_data) (download_path parent : string)
    (w : world) :
  1 ≤ fuel →
  parent ≠ "" →
  path_exists (os_path_join download_path parent) w = false →
  makedirs_fails os (os_path_join download_path parent) = true →
  ∃ w',
    process_files fuel pfuel os svc files download_path parent w = (Ret tt, w') ∧
    trace w' = trace w
               ++ refused_attempts (os_path_join download_path parent) (length files) ∧
    fs_files w' = fs_files w ∧
    fs_dirs w' = match files with
                 | [] => fs_dirs w
                 | _ :: _ =>
                     fs_dirs w
                     ∪ list_to_set (left_behind os (os_path_join download_path parent))
                 end ∧
    path_exists (os_path_join download_path parent) w' = false.
Proof.
  intros Hfuel Hparent Habsent Hmk. destruct fuel as [|n]; [lia|].
  cbn [process_files]. by apply refused_directory_loop.
Qed.

Lemma refused_directory_skips_every_entry_witness :
  ∃ w',
    process_files 1 1 leaf_strict_os tree_service [entry_b; entry_a] "dest" "sub/deep"
      fresh_world = (Ret tt, w') ∧
    trace w' = trace fresh_world
               ++ refused_attempts (os_path_join "dest" "sub/deep")
                    (length [entry_b; entry_a]) ∧
    fs_files w' = fs_files fresh_world ∧
    fs_dirs w' = match [entry_b; entry_a] with
                 | [] => fs_dirs fresh_world
                 | _ :: _ =>
                     fs_dirs fresh_world
                     ∪ list_to_set (left_behind leaf_strict_os
                                      (os_path_join "dest" "sub/deep"))
                 end ∧
    path_exists (os_path_join "dest" "sub/deep") w' = false.
Proof.
  apply (refused_directory_skips_every_entry 1 1 leaf_strict_os tree_service
           [entry_b; entry_a] "dest" "sub/deep" fresh_world);
    [lia | discriminate | reflexivity | reflexivity].
Defined.

(** On that machine the refused creation of [dest/sub/deep] leaves the
    intermediate directory [dest/sub] behind, and no file. *)
Example refused_directory_leaves_intermediate :
  let w := (process_files 1 1 leaf_strict_os tree_service [entry_b; entry_a]
              "dest" "sub/deep" fresh_world).2 in
  "dest/sub" ∈ fs_dirs w ∧ ("dest/sub/deep" ∉ fs_dirs w) ∧
  fs_files w = fs_files fresh_world.
Proof.
  cbv zeta. split; [|split].
  - by vm_compute.
  - by vm_compute.
  - reflexivity.
Qed.

Lemma calls_and_listing_log_make_no_directory (folder_id : string) (evs : list event) :
  Forall (fun ev => (∃ t, ev = CallList (list_req folder_id t))
                    ∨ ev = Log (LogListingError HttpError)) evs →
  makedirs_issued evs = [].
Proof.
  induction 1 as [|ev evs Hev _ IH]; [done|].
  by destruct Hev as [[t ->] | ->].
Qed.

(** A listing that comes back empty, because the folder is empty or
    because the listing failed. *)
Lemma list_files_in_folder_empty (svc : service) (folder_id : string) (pfuel : nat)
    (w : world) :
  (∃ pages, serves_pages svc folder_id None pages ∧ length pages ≤ pfuel ∧
            concat_until_empty pages = []) ∨
  (∃ k, listing_raises svc folder_id k None HttpError ∧ k ≤ pfuel) →
  ∃ evs,
    list_files_in_folder pfuel svc folder_id w
    = (Ret [], World (fs_dirs w) (fs_files w) (trace w ++ evs)) ∧
    makedirs_issued evs = [].
Proof.
  intros Hcase.
  destruct (list_files_in_folder_spec svc folder_id pfuel w)
    as (o & evs & Heq & Hevs & _).
  exists evs. split; [|by eapply calls_and_listing_log_make_no_directory].
  rewrite Heq. f_equal.
  destruct Hcase as [(pages & Hserves & Hfuel & Hempty) | (k & Hraises & Hfuel)].
  - destruct (list_files_in_folder_served svc folder_id pages pfuel w Hserves Hfuel)
      as (w' & Heq' & _).
    rewrite Heq' in Heq. rewrite Hempty in Heq. by injection Heq as <-.
  - destruct (listing_raises_loop _ _ _ _ _ Hraises pfuel [] w Hfuel)
      as (evs' & Hloop & _).
    unfold list_files_in_folder, try_except in Heq. rewrite Hloop in Heq.
    revert Heq. run_M. by intros [= <- _].
Qed.

(** X11: a folder listed at the top level whose own listing comes back
    empty is not mirrored: no directory is created for it, nothing is
    written, and the log says the folder is empty, also when the listing
    came back empty because it failed. *)
Theorem empty_folder_is_not_mirrored (n pfuel : nat) (os : os_env) (svc : service)
    (f : file_data) (download_path : string) (w : world) :
  fd_mimeType f = folder_mime →
  (∃ pages, serves_pages svc (fd_id f) None pages ∧ length pages ≤ pfuel ∧
            concat_until_empty pages = []) ∨
  (∃ k, listing_raises svc (fd_id f) k None HttpError ∧ k ≤ pfuel) →
  ∃ evs,
    process_files (S n) pfuel os svc [f] download_path "" w
    = (Ret tt,
       World (fs_dirs w) (fs_files w)
         (trace w ++ [Log (LogProcessingFolder (fd_name f) (fd_id f))] ++ evs
          ++ [Log (LogFolderEmpty (fd_name f))])) ∧
    makedirs_issued evs = [].
Proof.
  intros Hfolder Hcase.
  destruct (list_files_in_folder_empty svc (fd_id f) pfuel
              (push (Log (LogProcessingFolder (fd_name f) (fd_id f))) w) Hcase)
    as (evs & Heq & Hevs).
  exists evs. split; [|done].
  cbn [process_files for_each]. unfold process_entry, process_entry_by_type.
  cbn [String.eqb negb]. rewrite Hfolder, String.eqb_refl. run_M. rewrite Heq.
  unfold push. cbn. by rewrite <- !app_assoc.
Qed.

Lemma empty_folder_is_not_mirrored_witness :
  ∃ evs,
    process_files 1 1 kind_os tree_service [entry_bad] "dest" "" fresh_world
    = (Ret tt,
       World (fs_dirs fresh_world) (fs_files fresh_world)
         (trace fresh_world
          ++ [Log (LogProcessingFolder (fd_name entry_bad) (fd_id entry_bad))] ++ evs
          ++ [Log (LogFolderEmpty (fd_name entry_bad))])) ∧
    makedirs_issued evs = [].
Proof.
  apply (empty_folder_is_not_mirrored 0 1 kind_os tree_service entry_bad "dest"
           fresh_world); [reflexivity|].
  right. exists 1. split; [|lia]. apply raises_now. reflexivity.
Defined.

(** X26: the isolation of failures stops at the listing handler: when
    the listing of a subfolder fails with an exception that is not an
    [HttpError], the walk raises that exception at once; the entries after
    the subfolder are not processed and nothing is written. *)
Theorem listing_crash_aborts_walk (n pfuel : nat) (os : os_env) (svc : service)
    (f : file_data) (files : list file_data) (download_path : string) (w : world)
    (k : nat) (e : exn) :
  fd_mimeType f = folder_mime →
  listing_raises svc (fd_id f) k None e →
  e ≠ HttpError →
  k ≤ pfuel →
  ∃ evs,
    process_files (S n) pfuel os svc (f :: files) download_path "" w
    = (Raise e,
       World (fs_dirs w) (fs_files w)
         (trace w ++ Log (LogProcessingFolder (fd_name f) (fd_id f)) :: evs)) ∧
    Forall (fun ev => ∃ t, ev = CallList (list_req (fd_id f) t)) evs.
Proof.
  intros Hfolder Hraises Hne Hfuel.
  destruct (listing_raises_loop _ _ _ _ _ Hraises pfuel []
              (push (Log (LogProcessingFolder (fd_name f) (fd_id f))) w) Hfuel)
    as (evs & Hloop & Hevs).
  exists evs. split; [|done].
  assert (process_entry pfuel os svc (process_files n pfuel os svc) download_path "" f w
          = (Raise e,
             World (fs_dirs w) (fs_files w)
               (trace w ++ Log (LogProcessingFolder (fd_name f) (fd_id f)) :: evs)))
    as Hentry.
  { unfold process_entry, process_entry_by_type. cbn [String.eqb negb].
    rewrite Hfolder, String.eqb_refl. unfold list_files_in_folder. run_M.
    rewrite Hloop. cbn. rewrite <- app_assoc. by destruct e. }
  cbn [process_files for_each]. unfold mbind, M_bind. by rewrite Hentry.
Qed.

Lemma listing_crash_aborts_walk_witness :
  ∃ evs,
    process_files 1 1 kind_os offline_service [entry_sub; entry_a] "dest" "" fresh_world
    = (Raise OtherException,
       World (fs_dirs fresh_world) (fs_files fresh_world)
         (trace fresh_world
          ++ Log (LogProcessingFolder (fd_name entry_sub) (fd_id entry_sub)) :: evs)) ∧
    Forall (fun ev => ∃ t, ev = CallList (list_req (fd_id entry_sub) t)) evs.
Proof.
  apply (listing_crash_aborts_walk 0 1 kind_os offline_service entry_sub [entry_a]
           "dest" fresh_world 1 OtherException).
  - reflexivity.
  - apply raises_now. reflexivity.
  - discriminate.
  - lia.
Defined.

Lemma follows_nothing (w : world) : follows w w [].
Proof. exists []. by rewrite app_nil_r. Qed.

(** A file entry whose local directory needs no creation goes straight to
    [download_file]. *)
Lemma process_entry_file_in_place (pfuel : nat) (os : os_env) (svc : service)
    (recurse : list file_data → string → string → M unit)
    (download_path parent : string) (f : file_data) (w : world) :
  fd_mimeType f ≠ folder_mime →
  parent = "" ∨ path_exists (os_path_join download_path parent) w = true →
  ∃ current,
    process_entry pfuel os svc recurse download_path parent f w
    = download_file os svc (fd_id f) (fd_name f) current w.
Proof.
  intros Hfile%String.eqb_neq Hplace.
  unfold process_entry, process_entry_by_type. rewrite Hfile.
  destruct (String.eqb parent "") eqn:Hparent; cbn [negb]; [eauto|].
  destruct Hplace as [->|Hthere]; [done|].
  run_M. rewrite Hthere. cbn [negb]. eauto.
Qed.

Lemma files_in_place_loop (pfuel : nat) (os : os_env) (svc : service)
    (recurse : list file_data → string → string → M unit)
    (download_path parent : string) (files : list file_data) (w : world) :
  Forall (fun f => fd_mimeType f ≠ folder_mime) files →
  parent = "" ∨ path_exists (os_path_join download_path parent) w = true →
  ∃ w',
    for_each files (process_entry pfuel os svc recurse download_path parent) w
    = (Ret tt, w') ∧
    fs_dirs w' = fs_dirs w ∧
    dom (fs_files w) ⊆ dom (fs_files w') ∧
    follows w w' [].
Proof.
  intros Hfiles. revert w. induction Hfiles as [|f files Hf _ IH]; intros w Hplace.
  - exists w. split; [done|]. split; [done|]. split; [done|apply follows_nothing].
  - destruct (process_entry_file_in_place pfuel os svc recurse download_path parent
                f w Hf Hplace) as [current Hentry].
    destruct (download_file_frame os svc (fd_id f) (fd_name f) current w)
      as (w1 & evs & Hdl & Hd1 & _ & Hmono & Htrace & Hevs).
    destruct (IH w1) as (w2 & Hrest & Hd2 & Hdom2 & Hfol2).
    { destruct Hplace as [->|Hthere]; [by left|right].
      unfold path_exists in *. rewrite Hd1.
      apply orb_true_iff in Hthere as [Hdir|Hfile]; [by rewrite Hdir|].
      apply bool_decide_eq_true in Hfile.
      rewrite (bool_decide_eq_true_2 (is_Some (fs_files w1 !! _))) by auto.
      apply orb_true_r. }
    exists w2. split; [|split; [congruence|split]].
    + cbn [for_each]. unfold mbind, M_bind. by rewrite Hentry, Hdl.
    + etrans; [|exact Hdom2]. intros q Hq%elem_of_dom. apply elem_of_dom. auto.
    + apply (follows_trans w w1 w2 [] []); [by exists evs|done].
Qed.

(** X12: a walk over entries that are all files, at the top level or in a
    folder whose local directory is there, returns normally whatever the
    downloads do, asks for no directory, and leaves the set of directories
    and the file names it found in place: the download root itself is
    never created by the walk. *)
Theorem walk_over_files_makes_no_directory (fuel pfuel : nat) (os : os_env)
    (svc : service) (files : list file_data) (download_path parent : string)
    (w : world) :
  1 ≤ fuel →
  Forall (fun f => fd_mimeType f ≠ folder_mime) files →
  parent = "" ∨ path_exists (os_path_join download_path parent) w = true →
  ∃ w',
    process_files fuel pfuel os svc files download_path parent w = (Ret tt, w') ∧
    fs_dirs w' = fs_dirs w ∧
    dom (fs_files w) ⊆ dom (fs_files w') ∧
    follows w w' [].
Proof.
  intros Hfuel Hfiles Hplace. destruct fuel as [|n]; [lia|].
  cbn [process_files]. by apply files_in_place_loop.
Qed.

Lemma walk_over_files_makes_no_directory_witness :
  ∃ w',
    process_files 1 1 kind_os tree_service [entry_x; entry_a] "missing" "" fresh_world
    = (Ret tt, w') ∧
    fs_dirs w' = fs_dirs fresh_world ∧
    dom (fs_files fresh_world) ⊆ dom (fs_files w') ∧
    follows fresh_world w' [].
Proof.
  apply (walk_over_files_makes_no_directory 1 1 kind_os tree_service
           [entry_x; entry_a] "missing" "" fresh_world).
  - lia.
  - repeat constructor; discriminate.
  - by left.
Defined.

(** X13: a walk over one or more file entries of a folder whose local
    directory is missing and can be created asks for that directory once,
    for the first entry, and not again for the entries after it, whatever
    the downloads do. *)
Theorem new_directory_is_made_once (fuel pfuel : nat) (os : os_env) (svc : service)
    (f : file_data) (files : list file_data) (download_path parent : string)
    (w : world) :
  1 ≤ fuel →
  Forall (fun g => fd_mimeType g ≠ folder_mime) (f :: files) →
  parent ≠ "" →
  path_exists (os_path_join download_path parent) w = false →
  makedirs_fails os (os_path_join download_path parent) = false →
  ∃ w',
    process_files fuel pfuel os svc (f :: files) download_path parent w = (Ret tt, w') ∧
    fs_dirs w' = fs_dirs w ∪ list_to_set (ancestors (os_path_join download_path parent))
                   ∪ {[ os_path_join download_path parent ]} ∧
    follows w w' [os_path_join download_path parent].
Proof.
  intros Hfuel Hfiles Hparent Habsent Hmk. destruct fuel as [|n]; [lia|].
  apply Forall_cons in Hfiles as [Hf Hfiles].
  set (cur := os_path_join download_path parent) in *.
  set (w1 := push (Log (LogCreatedDirectory cur))
               (World (fs_dirs w ∪ list_to_set (ancestors cur) ∪ {[ cur ]}) (fs_files w)
                  (trace (push (Makedirs cur) w)))).
  assert (process_entry pfuel os svc (process_files n pfuel os svc) download_path
            parent f w
          = download_file os svc (fd_id f) (fd_name f) cur w1) as Hentry.
  { apply String.eqb_neq in Hparent, Hf.
    unfold process_entry, process_entry_by_type. rewrite Hparent, Hf. cbn [negb].
    fold cur. run_M. rewrite Habsent. cbn [negb]. unfold os_makedirs.
    rewrite Habsent, Hmk. cbn [orb]. by fold w1. }
  destruct (download_file_frame os svc (fd_id f) (fd_name f) cur w1)
    as (w2 & evs & Hdl & Hd2 & _ & _ & Htrace & Hevs).
  destruct (files_in_place_loop pfuel os svc (process_files n pfuel os svc)
              download_path parent files w2 Hfiles) as (w3 & Hrest & Hd3 & _ & Hfol3).
  { right. fold cur. unfold path_exists. rewrite Hd2. cbn [fs_dirs w1 push].
    rewrite bool_decide_eq_true_2; [done|].
    apply elem_of_union_r. by apply elem_of_singleton. }
  exists w3. split; [|split; [by rewrite Hd3, Hd2|]].
  - cbn [process_files for_each]. unfold mbind, M_bind. by rewrite Hentry, Hdl.
  - apply (follows_trans w w2 w3 [cur] []); [|done].
    apply (follows_trans w w1 w2 [cur] []); [|by exists evs].
    exists [Makedirs cur; Log (LogCreatedDirectory cur)]. split; [|done].
    cbn. by rewrite <- app_assoc.
Qed.

Lemma new_directory_is_made_once_witness :
  ∃ w',
    process_files 1 1 kind_os tree_service [entry_x; entry_b; entry_a] "dest" "sub"
      fresh_world = (Ret tt, w') ∧
    fs_dirs w' = fs_dirs fresh_world ∪ list_to_set (ancestors (os_path_join "dest" "sub"))
                   ∪ {[ os_path_join "dest" "sub" ]} ∧
    follows fresh_world w' [os_path_join "dest" "sub"].
Proof.
  apply (new_directory_is_made_once 1 1 kind_os tree_service entry_x
           [entry_b; entry_a] "dest" "sub" fresh_world).
  - lia.
  - repeat constructor; discriminate.
  - discriminate.
  - reflexivity.
  - reflexivity.
Defined.

End WalkDirectories.

(* ===================================================================== *)
(** ** Further properties of the credential provider *)
(* ===================================================================== *)

Section Credentials.
Import Mock MockTree MockTransfer.

Lemma get_service_account_credentials_spec (lib : auth_lib) (filename : string)
    (w : world) :
  ∃ r evs,
    get_service_account_credentials lib filename w
    = (Ret r, World (fs_dirs w) (fs_files w) (trace w ++ evs)) ∧
    Forall (fun ev => before_client ev = true) evs.
Proof.
  unfold get_service_account_credentials, read_file. run_M.
  destruct (negb (path_exists filename w)); cbn.
  { eexists _, [_]. split; [reflexivity|by repeat constructor]. }
  destruct (bool_decide (filename ∈ fs_dirs w)); cbn.
  { eexists _, [_]. split; [reflexivity|by repeat constructor]. }
  destruct (fs_files w !! filename) as [content|]; cbn.
  - destruct (from_service_account_file lib content); cbn.
    + eexists _, []. rewrite app_nil_r. split; [by destruct w|constructor].
    + eexists _, [_]. split; [reflexivity|by repeat constructor].
  - eexists _, [_]. split; [reflexivity|by repeat constructor].
Qed.

Lemma get_credentials_interactive_spec (lib : auth_lib) (os : os_env)
    (token_path : string) (w : world) :
  ∃ r w' evs,
    get_credentials_interactive lib os token_path w = (Ret r, w') ∧
    trace w' = trace w ++ evs ∧
    Forall (fun ev => before_client ev = true) evs.
Proof.
  unfold get_credentials_interactive, read_file. run_M.
  destruct (path_exists token_path w); cbn;
    [|eexists _, _, [_]; split; [reflexivity|split; [done|by repeat constructor]]].
  destruct (bool_decide (token_path ∈ fs_dirs w)) eqn:Hdir; cbn;
    [eexists _, _, [_; _]; split; [reflexivity|];
     split; [cbn; by rewrite <- app_assoc|by repeat constructor]|].
  destruct (fs_files w !! token_path) as [content|]; cbn;
    [|eexists _, _, [_; _]; split; [reflexivity|];
      split; [cbn; by rewrite <- app_assoc|by repeat constructor]].
  destruct (from_authorized_user_file lib content) as [c|e]; cbn;
    [|eexists _, _, [_; _]; split; [reflexivity|];
      split; [cbn; by rewrite <- app_assoc|by repeat constructor]].
  destruct (valid c); cbn.
  { eexists _, _, []. split; [reflexivity|]. by rewrite app_nil_r. }
  destruct (expired c && negb (token_falsy (refresh_token c))); cbn;
    [|eexists _, _, [_]; split; [reflexivity|split; [done|by repeat constructor]]].
  destruct (refresh lib c) as [c'|e]; cbn;
    [|eexists _, _, [_]; split; [reflexivity|split; [done|by repeat constructor]]].
  unfold open_write, write_chunk. cbn. rewrite Hdir. cbn.
  destruct (open_fails os token_path); cbn.
  - eexists _, _, [_; _]. split; [reflexivity|].
    split; [cbn; by rewrite <- app_assoc|by repeat constructor].
  - eexists _, _, [_]. split; [reflexivity|split; [done|by repeat constructor]].
Qed.

Lemma get_credentials_spec (lib : auth_lib) (os : os_env) (use_service_account : bool)
    (service_account_file token_path : string) (w : world) :
  ∃ r w' evs,
    get_credentials lib os use_service_account service_account_file token_path w
    = (Ret r, w') ∧
    trace w' = trace w ++ evs ∧
    Forall (fun ev => before_client ev = true) evs.
Proof.
  unfold get_credentials. destruct use_service_account; run_M;
    [|apply get_credentials_interactive_spec].
  destruct (get_service_account_credentials_spec lib service_account_file w)
    as (r & evs & -> & Hevs).
  destruct r as [c|].
  - eexists _, _, (evs ++ [_]). split; [reflexivity|]. cbn.
    split; [by rewrite app_assoc|]. apply Forall_app. by repeat constructor.
  - destruct (get_credentials_interactive_spec lib os token_path
                (push (Log LogServiceAccountFallback)
                   (World (fs_dirs w) (fs_files w) (trace w ++ evs))))
      as (r & w' & evs' & -> & Htrace & Hevs').
    eexists _, _, (evs ++ Log LogServiceAccountFallback :: evs').
    split; [reflexivity|]. split.
    + rewrite Htrace. cbn. by rewrite <- !app_assoc.
    + apply Forall_app. split; [done|]. by constructor.
Qed.

Lemma create_service_spec (lib : auth_lib) (c : creds) (w : world) :
  ∃ r evs,
    create_service lib c w = (Ret r, World (fs_dirs w) (fs_files w) (trace w ++ evs)) ∧
    Forall (fun ev => before_client ev = true) evs.
Proof.
  unfold create_service. run_M. destruct (build lib c); cbn;
    eexists _, [_]; (split; [reflexivity|by repeat constructor]).
Qed.

(** X14: whatever the credential files hold and whatever the client
    libraries and the operating system do, [get_credentials] and
    [create_service] return normally, with a value or with [None]: every
    exception raised underneath is caught and logged. *)
Theorem credentials_and_client_never_raise (lib : auth_lib) (os : os_env)
    (use_service_account : bool) (service_account_file token_path : string)
    (c : creds) (w : world) :
  (∃ r, (get_credentials lib os use_service_account service_account_file
           token_path w).1 = Ret r) ∧
  (∃ r, (create_service lib c w).1 = Ret r).
Proof.
  split.
  - destruct (get_credentials_spec lib os use_service_account service_account_file
                token_path w) as (r & w' & evs & -> & _). eauto.
  - destruct (create_service_spec lib c w) as (r & evs & -> & _). eauto.
Qed.

(** X15: when the service-account file is there and loads, its
    credentials are the ones returned: the token file is neither read nor
    written, nothing is refreshed, and the only trace is one log record. *)
Theorem service_account_takes_precedence (lib : auth_lib) (os : os_env)
    (service_account_file token_path content : string) (c : creds) (w : world) :
  service_account_file ∉ fs_dirs w →
  fs_files w !! service_account_file = Some content →
  from_service_account_file lib content = Returns c →
  get_credentials lib os true service_account_file token_path w
  = (Ret (Some c), push (Log LogServiceAccountLoaded) w).
Proof.
  intros Hdir Hfile Hload.
  unfold get_credentials, get_service_account_credentials, read_file. run_M.
  unfold path_exists. rewrite Hfile. rewrite (bool_decide_eq_false_2 _ Hdir).
  rewrite (bool_decide_eq_true_2 (is_Some (Some content))) by eauto.
  cbn. rewrite Hfile, (bool_decide_eq_false_2 _ Hdir). cbn. by rewrite Hload.
Qed.

Lemma service_account_takes_precedence_witness :
  get_credentials tree_lib kind_os true "service_account.json" "token.json" fresh_world
  = (Ret (Some (Creds true false None "robot")),
     push (Log LogServiceAccountLoaded) fresh_world).
Proof.
  apply (service_account_takes_precedence tree_lib kind_os "service_account.json"
           "token.json" "{}" (Creds true false None "robot") fresh_world);
    [done | reflexivity | reflexivity].
Defined.

(** X16: when the service-account file is missing, is a directory, or
    does not load, [get_credentials] logs the error and the fallback and
    then does exactly what the token path alone would have done. *)
Theorem service_account_failure_falls_back (lib : auth_lib) (os : os_env)
    (service_account_file token_path : string) (e : exn) (w : world) :
  ((path_exists service_account_file w = false ∧ e = OSError) ∨
   (service_account_file ∈ fs_dirs w ∧ e = OSError) ∨
   (∃ content, (service_account_file ∉ fs_dirs w) ∧
               fs_files w !! service_account_file = Some content ∧
               from_service_account_file lib content = Raises e)) →
  get_credentials lib os true service_account_file token_path w
  = get_credentials_interactive lib os token_path
      (push (Log LogServiceAccountFallback)
         (push (Log (LogServiceAccountError e)) w)).
Proof.
  intros Hcase.
  unfold get_credentials, get_service_account_credentials, read_file. run_M.
  destruct Hcase as [[Habsent ->] | [[Hdir ->] | (content & Hdir & Hfile & Hload)]].
  - by rewrite Habsent.
  - unfold path_exists. rewrite (bool_decide_eq_true_2 _ Hdir). cbn.
    by rewrite (bool_decide_eq_true_2 _ Hdir).
  - unfold path_exists. rewrite Hfile, (bool_decide_eq_false_2 _ Hdir).
    rewrite (bool_decide_eq_true_2 (is_Some (Some content))) by eauto.
    cbn. rewrite Hfile, (bool_decide_eq_false_2 _ Hdir). cbn. by rewrite Hload.
Qed.

Lemma service_account_failure_falls_back_witness :
  get_credentials refreshing_lib kind_os true "service_account.json" "token.json"
    token_world
  = get_credentials_interactive refreshing_lib kind_os "token.json"
      (push (Log LogServiceAccountFallback)
         (push (Log (LogServiceAccountError OSError)) token_world)).
Proof.
  apply (service_account_failure_falls_back refreshing_lib kind_os
           "service_account.json" "token.json" OSError token_world).
  left. split; reflexivity.
Defined.

(** The token path up to the point where the stored credential is known. *)
Lemma get_credentials_interactive_loaded (lib : auth_lib) (os : os_env)
    (token_path content : string) (c : creds) (w : world) :
  token_path ∉ fs_dirs w →
  fs_files w !! token_path = Some content →
  from_authorized_user_file lib content = Returns c →
  get_credentials_interactive lib os token_path w
  = (if valid c then mret (Some c)
     else if expired c && negb (token_falsy (refresh_token c)) then
       refreshed ← except_Exception
         (c' ← lift (refresh lib c); mret (Some c'))
         (fun e => logging (LogRefreshError e);; mret None);
       match refreshed with
       | None => mret None
       | Some c' =>
           except_Exception
             (open_write os token_path;; write_chunk token_path (to_json lib c'))
             (fun e => logging (LogTokenSaveFailed token_path e));;
           mret (Some c')
       end
     else logging LogNeedInteractive;; mret None) w.
Proof.
  intros Hdir Hfile Hload.
  unfold get_credentials_interactive at 1. unfold mbind at 1. unfold M_bind at 1.
  unfold os_path_exists, path_exists. rewrite Hfile.
  rewrite (bool_decide_eq_true_2 (is_Some (Some content))) by eauto.
  rewrite orb_true_r. unfold mbind at 1. unfold M_bind at 1.
  unfold except_Exception at 1, try_except at 1.
  unfold mbind at 1. unfold M_bind at 1. unfold read_file.
  rewrite (bool_decide_eq_false_2 _ Hdir), Hfile.
  unfold mbind at 1. unfold M_bind at 1. rewrite Hload. reflexivity.
Qed.

(** X17: an expired credential with a refresh token is refreshed, and
    the refreshed credential is the one returned, whether or not it could
    be saved; when the token file can be opened it then holds exactly the
    serialization of the credential returned, and when it cannot the files
    are as they were and a warning is logged. *)
Theorem refreshed_token_is_persisted (lib : auth_lib) (os : os_env)
    (token_path content : string) (c c' : creds) (w : world) :
  token_path ∉ fs_dirs w →
  fs_files w !! token_path = Some content →
  from_authorized_user_file lib content = Returns c →
  valid c = false →
  expired c = true →
  token_falsy (refresh_token c) = false →
  refresh lib c = Returns c' →
  (get_credentials_interactive lib os token_path w).1 = Ret (Some c') ∧
  (open_fails os token_path = false →
   fs_files (get_credentials_interactive lib os token_path w).2
   = <[token_path := to_json lib c']> (fs_files w)) ∧
  (open_fails os token_path = true →
   fs_files (get_credentials_interactive lib os token_path w).2 = fs_files w ∧
   Log (LogTokenSaveFailed token_path OSError)
     ∈ trace (get_credentials_interactive lib os token_path w).2).
Proof.
  intros Hdir Hfile Hload Hvalid Hexpired Htoken Hrefresh.
  rewrite (get_credentials_interactive_loaded lib os token_path content c w) by done.
  rewrite Hvalid, Hexpired, Htoken. cbn [negb andb].
  unfold open_write, write_chunk. run_M. rewrite Hrefresh. cbn.
  rewrite (bool_decide_eq_false_2 _ Hdir). cbn.
  destruct (open_fails os token_path); cbn.
  - split; [done|]. split; [done|]. intros _. split; [done|].
    rewrite !elem_of_app, !elem_of_cons. tauto.
  - split; [done|]. split; [|done]. intros _.
    by rewrite lookup_insert_eq, insert_insert_eq.
Qed.

Lemma refreshed_token_is_persisted_witness :
  (get_credentials_interactive refreshing_lib kind_os "token.json" token_world).1
  = Ret (Some (Creds true false (Some "r") "user")) ∧
  (open_fails kind_os "token.json" = false →
   fs_files (get_credentials_interactive refreshing_lib kind_os "token.json"
               token_world).2
   = <["token.json" := to_json refreshing_lib (Creds true false (Some "r") "user")]>
       (fs_files token_world)) ∧
  (open_fails kind_os "token.json" = true →
   fs_files (get_credentials_interactive refreshing_lib kind_os "token.json"
               token_world).2 = fs_files token_world ∧
   Log (LogTokenSaveFailed "token.json" OSError)
     ∈ trace (get_credentials_interactive refreshing_lib kind_os "token.json"
                token_world).2).
Proof.
  apply (refreshed_token_is_persisted refreshing_lib kind_os "token.json" "expired"
           (Creds false true (Some "r") "user") (Creds true false (Some "r") "user")
           token_world); done.
Defined.

(** X18: the token path never hands out a credential it has not checked:
    what it returns was read from the token file and either is valid as
    read, or was invalid, expired and has just been refreshed.  Without a
    readable token file it returns [None]. *)
Theorem interactive_credentials_are_valid_or_refreshed (lib : auth_lib) (os : os_env)
    (token_path : string) (c : creds) (w : world) :
  (get_credentials_interactive lib os token_path w).1 = Ret (Some c) →
  ∃ content c0,
    fs_files w !! token_path = Some content ∧
    from_authorized_user_file lib content = Returns c0 ∧
    ((valid c0 = true ∧ c = c0) ∨
     (valid c0 = false ∧ expired c0 = true ∧
      token_falsy (refresh_token c0) = false ∧ refresh lib c0 = Returns c)).
Proof.
  unfold get_credentials_interactive, read_file. run_M.
  destruct (path_exists token_path w); cbn; [|done].
  destruct (bool_decide (token_path ∈ fs_dirs w)) eqn:Hdir; cbn; [done|].
  destruct (fs_files w !! token_path) as [content|] eqn:Hfile; cbn; [|done].
  destruct (from_authorized_user_file lib content) as [c0|e] eqn:Hload; cbn; [|done].
  destruct (valid c0) eqn:Hvalid; cbn.
  { intros [= <-]. exists content, c0. auto. }
  destruct (expired c0) eqn:Hexpired; cbn; [|done].
  destruct (token_falsy (refresh_token c0)) eqn:Htoken; cbn; [done|].
  destruct (refresh lib c0) as [c'|e] eqn:Hrefresh; cbn; [|done].
  unfold open_write, write_chunk. cbn. rewrite Hdir. cbn.
  destruct (open_fails os token_path); cbn; intros [= <-];
    exists content, c0; split; [done| |done|]; split; [done| |done|]; right; done.
Qed.

Lemma interactive_credentials_are_valid_or_refreshed_witness :
  ∃ content c0,
    fs_files token_world !! "token.json" = Some content ∧
    from_authorized_user_file refreshing_lib content = Returns c0 ∧
    ((valid c0 = true ∧ Creds true false (Some "r") "user" = c0) ∨
     (valid c0 = false ∧ expired c0 = true ∧
      token_falsy (refresh_token c0) = false ∧
      refresh refreshing_lib c0 = Returns (Creds true false (Some "r") "user"))).
Proof.
  apply (interactive_credentials_are_valid_or_refreshed refreshing_lib kind_os
           "token.json" (Creds true false (Some "r") "user") token_world).
  reflexivity.
Defined.

End Credentials.

(* ===================================================================== *)
(** ** Further properties of [download_files_from_shared_link] *)
(* ===================================================================== *)

Section Failure.
Import PyString UrlSpec Mock MockTree MockTransfer.

(** X19: an empty URL, an empty download path, or a URL without a marker
    makes the run return [False] with exactly one log record (the checks
    are made in that order) and nothing else: no credential file is read,
    no client is built, no remote call is made. *)
Theorem configuration_errors_touch_nothing (fuel pfuel : nat) (lib : auth_lib)
    (os : os_env) (shared_url download_path : string) (use_service_account : bool)
    (service_account_file token_path : string) (w : world) :
  shared_url = "" ∨ download_path = "" ∨
  (contains folders_marker shared_url = false ∧
   contains folderview_marker shared_url = false) →
  download_files_from_shared_link fuel pfuel lib os shared_url download_path
    use_service_account service_account_file token_path w
  = (Ret false, push (Log (configuration_error shared_url download_path)) w).
Proof.
  intros Hcase. unfold download_files_from_shared_link, configuration_error.
  destruct (String.eqb shared_url "") eqn:Hurl; [done|].
  destruct (String.eqb download_path "") eqn:Hpath; [done|].
  destruct Hcase as [-> | [-> | [H1 H2]]]; [done|done|].
  rewrite get_shared_folder_id_unselected; [done|].
  apply contains_false_first_after in H1, H2.
  unfold selected_marker. by rewrite H1, H2.
Qed.

Lemma configuration_errors_touch_nothing_witness :
  download_files_from_shared_link 2 1 tree_lib kind_os
    "https://drive.google.com/file/d/abc123/view" "dest" true
    "service_account.json" "token.json" fresh_world
  = (Ret false,
     push (Log (configuration_error "https://drive.google.com/file/d/abc123/view" "dest"))
       fresh_world).
Proof.
  apply (configuration_errors_touch_nothing 2 1 tree_lib kind_os
           "https://drive.google.com/file/d/abc123/view" "dest" true
           "service_account.json" "token.json" fresh_world).
  right. right. split; reflexivity.
Defined.

(** X20: whenever the run returns [False], it has not touched the Drive
    service and has created nothing: all it added to the trace are log
    records and, at most, the rewrite of the token file, and the
    directories and file names on disk are those it started with. *)
Theorem failure_precedes_any_drive_call (fuel pfuel : nat) (lib : auth_lib)
    (os : os_env) (shared_url download_path : string) (use_service_account : bool)
    (service_account_file token_path : string) (w : world) :
  (download_files_from_shared_link fuel pfuel lib os shared_url download_path
     use_service_account service_account_file token_path w).1 = Ret false →
  ∃ evs,
    trace (download_files_from_shared_link fuel pfuel lib os shared_url download_path
             use_service_account service_account_file token_path w).2
    = trace w ++ evs ∧
    Forall (fun ev => before_client ev = true) evs ∧
    same_paths w
      (download_files_from_shared_link fuel pfuel lib os shared_url download_path
         use_service_account service_account_file token_path w).2.
Proof.
  unfold download_files_from_shared_link.
  destruct (String.eqb shared_url "").
  { intros _. exists [Log LogUrlRequired]. by repeat constructor. }
  destruct (String.eqb download_path "").
  { intros _. exists [Log LogPathRequired]. by repeat constructor. }
  run_M. destruct (get_shared_folder_id (PyStr shared_url)) as [[folder_id|]|e];
    [| intros _; exists [Log LogInvalidUrl]; by repeat constructor | done].
  destruct (String.eqb folder_id "").
  { intros _. exists [Log LogInvalidUrl]. by repeat constructor. }
  pose proof (get_credentials_paths lib os use_service_account service_account_file
                token_path w) as Hpaths1.
  destruct (get_credentials_spec lib os use_service_account service_account_file
              token_path w) as (r1 & w1 & evs1 & Heq1 & Htrace1 & Hevs1).
  rewrite Heq1 in Hpaths1 |- *. cbn [snd] in Hpaths1.
  destruct r1 as [c|].
  2:{ intros _. exists (evs1 ++ [Log LogNoCredentials]). cbn. rewrite Htrace1.
      split; [by rewrite app_assoc|]. split; [|done].
      apply Forall_app. by repeat constructor. }
  destruct (create_service_spec lib c w1) as (r2 & evs2 & Heq2 & Hevs2).
  rewrite Heq2. destruct r2 as [svc|].
  2:{ intros _. exists (evs1 ++ evs2 ++ [Log LogNoService]). cbn. rewrite Htrace1.
      split; [by rewrite <- !app_assoc|]. split; [|done].
      apply Forall_app. split; [done|]. apply Forall_app. by repeat constructor. }
  destruct (list_files_in_folder pfuel svc folder_id _) as [[[|f files]|e|] w3];
    [done| |done|done].
  by destruct (process_files fuel pfuel os svc (f :: files) download_path "" w3)
    as [[[]|e|] w4].
Qed.

Lemma failure_precedes_any_drive_call_witness :
  ∃ evs,
    trace (download_files_from_shared_link 2 1 refreshing_lib kind_os
             "https://drive.google.com/drive/folders/root" "dest" true
             "service_account.json" "missing.json" token_world).2
    = trace token_world ++ evs ∧
    Forall (fun ev => before_client ev = true) evs ∧
    same_paths token_world
      (download_files_from_shared_link 2 1 refreshing_lib kind_os
         "https://drive.google.com/drive/folders/root" "dest" true
         "service_account.json" "missing.json" token_world).2.
Proof.
  apply (failure_precedes_any_drive_call 2 1 refreshing_lib kind_os
           "https://drive.google.com/drive/folders/root" "dest" true
           "service_account.json" "missing.json" token_world).
  reflexivity.
Defined.

End Failure.

(* ===================================================================== *)
(** ** Properties of the front ends *)
(* ===================================================================== *)

(** Unfolds the plumbing of the front-end monad. *)
Ltac run_F :=
  cbv beta iota zeta delta
    [mbind mret F_bind F_ret show on_machine front_try os_path_exists fst snd].

Section FrontEnds.
Import Mock MockTree MockTransfer.



(** X22: with two or more arguments the command line runs the core on
    the first two, with the service account unless the switch occurs
    anywhere in [sys.argv]; when the core returns it prints the banner and
    one line that tells success from failure, and exits with status 0 in
    both cases. *)
Theorem command_line_reports_by_text_only (fuel pfuel : nat) (lib : auth_lib)
    (os : os_env) (argv : list string) (shared_url download_path : string)
    (s : front) (success : bool) (w' : world) :
  argv !! 1 = Some shared_url →
  argv !! 2 = Some download_path →
  download_files_from_shared_link fuel pfuel lib os shared_url download_path
    (negb (bool_decide ("--no-service-account" ∈ argv)))
    default_service_account_file default_token_path (machine s) = (Ret success, w') →
  main fuel pfuel lib os argv s
  = (Ret (Exit 0),
     Front (shown s
            ++ [Print ("Downloading from " +:+ shared_url +:+ " to " +:+ download_path
                       +:+ " using service account: "
                       +:+ py_bool_str (negb (bool_decide ("--no-service-account" ∈ argv))));
                Print (if success then "Download completed successfully."
                       else "Download failed.")])
       w').
Proof.
  intros H1 H2 Hrun. unfold main.
  apply lookup_lt_Some in H1 as Hlen1. apply lookup_lt_Some in H2 as Hlen2.
  rewrite bool_decide_eq_true_2 by lia. rewrite bool_decide_eq_false_2 by lia.
  rewrite H1, H2. run_F. cbn [machine shown]. rewrite Hrun.
  destruct success; cbn; by rewrite <- app_assoc.
Qed.

Lemma command_line_reports_by_text_only_witness :
  main 2 1 tree_lib kind_os ["prog"; "no-link"; "dest"; "--no-service-account"]
    (Front [] fresh_world)
  = (Ret (Exit 0),
     Front (shown (Front [] fresh_world)
            ++ [Print ("Downloading from " +:+ "no-link" +:+ " to " +:+ "dest"
                       +:+ " using service account: "
                       +:+ py_bool_str
                             (negb (bool_decide
                                      ("--no-service-account"
                                         ∈ ["prog"; "no-link"; "dest";
                                            "--no-service-account"]))));
                Print (if false then "Download completed successfully."
                       else "Download failed.")])
       (push (Log LogInvalidUrl) fresh_world)).
Proof.
  apply (command_line_reports_by_text_only 2 1 tree_lib kind_os
           ["prog"; "no-link"; "dest"; "--no-service-account"] "no-link" "dest"
           (Front [] fresh_world) false (push (Log LogInvalidUrl) fresh_world));
    reflexivity.
Defined.

(** X23: when the download directory is missing and cannot be created,
    the worker of the window logs the error, shows it, re-enables the
    button and stops: the core is not run, so no credential is read, no
    remote call is made and no file is touched; the one thing the worker
    has asked of the machine is the creation of the directory, which is
    still missing (the intermediate directories that [os.makedirs] made
    before it was refused apart). *)
Theorem worker_refused_directory_runs_nothing (fuel pfuel : nat) (lib : auth_lib)
    (os : os_env) (shared_url download_path : string) (use_service_account : bool)
    (s : front) :
  path_exists download_path (machine s) = false →
  makedirs_fails os download_path = true →
  ∃ w',
    perform_download fuel pfuel lib os shared_url download_path use_service_account s
    = (Ret tt,
       Front (shown s ++ [LogCreateDownloadDirError OSError;
                          UpdateStatus "Error: Could not create download directory.";
                          EnableDownloadButton])
         w') ∧
    trace w' = trace (machine s) ++ [Makedirs download_path] ∧
    fs_files w' = fs_files (machine s) ∧
    fs_dirs w' = fs_dirs (machine s) ∪ list_to_set (left_behind os download_path) ∧
    path_exists download_path w' = false.
Proof.
  intros Habsent Hmk. unfold perform_download. run_F. rewrite Habsent. cbn [negb].
  unfold os_makedirs. cbn [machine shown]. rewrite Habsent, Hmk. cbn.
  eexists. split; [by rewrite <- !app_assoc|]. cbn [trace fs_files fs_dirs].
  repeat split. by apply path_exists_left_behind.
Qed.

Lemma worker_refused_directory_runs_nothing_witness :
  ∃ w',
    perform_download 2 1 tree_lib leaf_strict_os
      "https://drive.google.com/drive/folders/root" "new/deep" true (Front [] fresh_world)
    = (Ret tt,
       Front (shown (Front [] fresh_world)
              ++ [LogCreateDownloadDirError OSError;
                  UpdateStatus "Error: Could not create download directory.";
                  EnableDownloadButton])
         w') ∧
    trace w' = trace (machine (Front [] fresh_world)) ++ [Makedirs "new/deep"] ∧
    fs_files w' = fs_files (machine (Front [] fresh_world)) ∧
    fs_dirs w' = fs_dirs (machine (Front [] fresh_world))
                 ∪ list_to_set (left_behind leaf_strict_os "new/deep") ∧
    path_exists "new/deep" w' = false.
Proof.
  apply (worker_refused_directory_runs_nothing 2 1 tree_lib leaf_strict_os
           "https://drive.google.com/drive/folders/root" "new/deep" true
           (Front [] fresh_world)); reflexivity.
Defined.

(** X24: when the worker of the window returns, the last thing it has
    queued is the re-enabling of the button, right after one status text:
    the directory error, or ["Download complete!"] or ["Download failed."]
    according to what the core returned on the machine the directory step
    left. *)
Theorem worker_reports_and_reenables (fuel pfuel : nat) (lib : auth_lib)
    (os : os_env) (shared_url download_path : string) (use_service_account : bool)
    (s : front) :
  (perform_download fuel pfuel lib os shared_url download_path use_service_account s).1
  = Ret tt →
  (path_exists download_path (machine s) = false ∧
   makedirs_fails os download_path = true ∧
   shown (perform_download fuel pfuel lib os shared_url download_path
            use_service_account s).2
   = shown s ++ [LogCreateDownloadDirError OSError;
                 UpdateStatus "Error: Could not create download directory.";
                 EnableDownloadButton]) ∨
  (∃ success,
     (download_files_from_shared_link fuel pfuel lib os shared_url download_path
        use_service_account default_service_account_file default_token_path
        (if path_exists download_path (machine s) then machine s
         else (os_makedirs os download_path (machine s)).2)).1 = Ret success ∧
     shown (perform_download fuel pfuel lib os shared_url download_path
              use_service_account s).2
     = shown s ++ [UpdateStatus (if success then "Download complete!"
                                 else "Download failed.");
                   EnableDownloadButton]).
Proof.
  unfold perform_download. run_F.
  destruct (path_exists download_path (machine s)) eqn:Hthere; cbn [negb].
  - destruct (download_files_from_shared_link _ _ _ _ _ _ _ _ _ _) as [[[]|e|] w'];
      cbn; try done; intros _; right; eexists; (split; [reflexivity|]);
      by rewrite <- app_assoc.
  - unfold os_makedirs. cbn [machine shown]. rewrite Hthere.
    destruct (makedirs_fails os download_path) eqn:Hmk; cbn.
    + intros _. left. split; [done|]. split; [done|]. by rewrite <- !app_assoc.
    + destruct (download_files_from_shared_link _ _ _ _ _ _ _ _ _ _) as [[[]|e|] w'];
        cbn; try done; intros _; right; eexists; (split; [reflexivity|]);
        by rewrite <- app_assoc.
Qed.

Lemma worker_reports_and_reenables_witness :
  (path_exists "dest" (machine (Front [] fresh_world)) = false ∧
   makedirs_fails kind_os "dest" = true ∧
   shown (perform_download 2 1 tree_lib kind_os
            "https://drive.google.com/drive/folders/root" "dest" true
            (Front [] fresh_world)).2
   = shown (Front [] fresh_world)
     ++ [LogCreateDownloadDirError OSError;
         UpdateStatus "Error: Could not create download directory.";
         EnableDownloadButton]) ∨
  (∃ success,
     (download_files_from_shared_link 2 1 tree_lib kind_os
        "https://drive.google.com/drive/folders/root" "dest" true
        default_service_account_file default_token_path
        (if path_exists "dest" (machine (Front [] fresh_world))
         then machine (Front [] fresh_world)
         else (os_makedirs kind_os "dest" (machine (Front [] fresh_world))).2)).1
     = Ret success ∧
     shown (perform_download 2 1 tree_lib kind_os
              "https://drive.google.com/drive/folders/root" "dest" true
              (Front [] fresh_world)).2
     = shown (Front [] fresh_world)
       ++ [UpdateStatus (if success then "Download complete!" else "Download failed.");
           EnableDownloadButton]).
Proof.
  apply (worker_reports_and_reenables 2 1 tree_lib kind_os
           "https://drive.google.com/drive/folders/root" "dest" true
           (Front [] fresh_world)).
  reflexivity.
Defined.

(** X25: when the core raises (a listing that fails with anything but an
    [HttpError], say), the worker of the window does not catch it: the
    worker raises the same exception, on the machine as the core left it,
    and has queued nothing, so no status text is set and the button is not
    re-enabled. *)
Theorem worker_crash_shows_nothing (fuel pfuel : nat) (lib : auth_lib)
    (os : os_env) (shared_url download_path : string) (use_service_account : bool)
    (s : front) (e : exn) (w' : world) :
  path_exists download_path (machine s) = true ∨ makedirs_fails os download_path = false →
  download_files_from_shared_link fuel pfuel lib os shared_url download_path
    use_service_account default_service_account_file default_token_path
    (if path_exists download_path (machine s) then machine s
     else (os_makedirs os download_path (machine s)).2)
  = (Raise e, w') →
  perform_download fuel pfuel lib os shared_url download_path use_service_account s
  = (Raise e, Front (shown s) w').
Proof.
  intros Hready Hcore. unfold perform_download. run_F.
  destruct (path_exists download_path (machine s)) eqn:Hthere; cbn [negb].
  - cbn [machine shown]. by rewrite Hcore.
  - destruct Hready as [|Hmk]; [done|].
    revert Hcore. unfold os_makedirs. cbn [machine shown]. rewrite Hthere, Hmk. cbn.
    by intros ->.
Qed.

Lemma worker_crash_shows_nothing_witness :
  perform_download 2 1 offline_lib kind_os
    "https://drive.google.com/drive/folders/root" "dest" true (Front [] fresh_world)
  = (Raise OtherException,
     Front (shown (Front [] fresh_world))
       (download_files_from_shared_link 2 1 offline_lib kind_os
          "https://drive.google.com/drive/folders/root" "dest" true
          default_service_account_file default_token_path fresh_world).2).
Proof.
  apply (worker_crash_shows_nothing 2 1 offline_lib kind_os
           "https://drive.google.com/drive/folders/root" "dest" true
           (Front [] fresh_world) OtherException
           (download_files_from_shared_link 2 1 offline_lib kind_os
              "https://drive.google.com/drive/folders/root" "dest" true
              default_service_account_file default_token_path fresh_world).2).
  - left. reflexivity.
  - reflexivity.
Defined.

End FrontEnds.
